(** * rpg-attributes: a shallow embedding and its verified properties

    The development follows the two code bases of the package:

    - [Shared]  : src/shared/attribute-{types,constants,catalog,utilities}.ts
    - [Compact] : src/compact-core.ts (pure helpers and the reactive
                  [AttributeManager] built on Fusion's Value / Computed /
                  Observer objects).

    Numbers.  The attribute fields are game statistics that the package
    treats as integers; a TypeScript [number] is modelled as [Z]. *)

From Stdlib Require Import ZArith Lia.
From stdpp Require Import gmap strings list functions.

Local Open Scope string_scope.
Local Open Scope list_scope.
Local Open Scope Z_scope.

(** ** attribute-types.ts *)

(** [type AttributeKey = (typeof ATTRIBUTE_KEYS)[number]]: a closed union
    of five string literals. *)
Inductive AttributeKey : Type :=
| vitality
| strength
| agility
| intellect
| luck.

Definition ATTRIBUTE_KEYS : list AttributeKey :=
  [vitality; strength; agility; intellect; luck].

(** The string literal behind each member of the union. *)
Definition key_name (key : AttributeKey) : string :=
  match key with
  | vitality => "vitality"
  | strength => "strength"
  | agility => "agility"
  | intellect => "intellect"
  | luck => "luck"
  end.

#[global] Instance AttributeKey_eq_dec : EqDecision AttributeKey.
Proof. solve_decision. Defined.

Definition key_index (key : AttributeKey) : nat :=
  match key with
  | vitality => 0
  | strength => 1
  | agility => 2
  | intellect => 3
  | luck => 4
  end.

#[global] Instance AttributeKey_countable : Countable AttributeKey.
Proof.
  refine (inj_countable' key_index
            (fun n => default vitality (ATTRIBUTE_KEYS !! n)) _).
  by intros [].
Defined.

Record AttributeMeta : Type := mkMeta {
  displayName : string;
  description : string;
  icon : string;
  tooltip : option string
}.

Record AttributeValues : Type := mkValues {
  baseValue : Z;
  equipmentBonus : Z;
  effectBonus : Z
}.

(** [Partial<AttributeValues>]: every field may be absent. *)
Record PartialAttributeValues : Type := mkPartial {
  baseValue_opt : option Z;
  equipmentBonus_opt : option Z;
  effectBonus_opt : option Z
}.

(** Object spread [{...base, ...overrides}] on the three value fields:
    a field present in [overrides] wins; an absent [overrides] object
    spreads nothing. *)
Definition spread_values (base : AttributeValues)
    (overrides : option PartialAttributeValues) : AttributeValues :=
  match overrides with
  | None => base
  | Some o =>
      {| baseValue := default (baseValue base) (baseValue_opt o);
         equipmentBonus := default (equipmentBonus base) (equipmentBonus_opt o);
         effectBonus := default (effectBonus base) (effectBonus_opt o) |}
  end.

#[global] Instance AttributeValues_eq_dec : EqDecision AttributeValues.
Proof. solve_decision. Defined.

#[global] Instance AttributeMeta_eq_dec : EqDecision AttributeMeta.
Proof. solve_decision. Defined.

(** ** The shared utilities (src/shared) *)

Module Shared.

(** One entry [AttributesState[AttributeKey]]. *)
Record AttributeStateEntry : Type := mkEntry {
  meta : AttributeMeta;
  values : AttributeValues;
  totalValue : Z
}.

(** attribute-constants.ts *)
Definition AttributeIconMap (key : AttributeKey) : string :=
  match key with
  | vitality => "rbxassetid://121291227474039"
  | strength => "rbxassetid://127745571044516"
  | agility => "rbxassetid://73893872719367"
  | intellect => "rbxassetid://107600003376684"
  | luck => "rbxassetid://114767496083209"
  end.

Definition DefaultAttributeValues : AttributeValues :=
  {| baseValue := 10; equipmentBonus := 2; effectBonus := 2 |}.

(** attribute-catalog.ts *)
Definition AttributeCatalog (key : AttributeKey) : AttributeMeta :=
  match key with
  | vitality =>
      {| displayName := "Vitality";
         description := "Increases maximum health points.";
         icon := AttributeIconMap vitality;
         tooltip := Some "Each point of Vitality increases your maximum HP, making you more resilient in combat." |}
  | strength =>
      {| displayName := "Strength";
         description := "Increases physical damage dealt.";
         icon := AttributeIconMap strength;
         tooltip := Some "Higher Strength enhances your melee and physical weapon damage output." |}
  | agility =>
      {| displayName := "Agility";
         description := "Increases accuracy and evasion.";
         icon := AttributeIconMap agility;
         tooltip := Some "Agility improves your hit chance, dodge rate, and movement speed in combat." |}
  | intellect =>
      {| displayName := "Intellect";
         description := "Increases magic damage dealt.";
         icon := AttributeIconMap intellect;
         tooltip := Some "Intellect boosts your magical damage and may increase mana pool or spell effectiveness." |}
  | luck =>
      {| displayName := "Luck";
         description := "Increases chance for critical hits.";
         icon := AttributeIconMap luck;
         tooltip := Some "Luck influences critical hit chance, rare item drops, and other random events." |}
  end.

(** attribute-utilities.ts *)
Definition calculateTotalAttributeValue (values : AttributeValues) : Z :=
  baseValue values + equipmentBonus values + effectBonus values.

Definition createAttributeValues
    (overrides : option PartialAttributeValues) : AttributeValues :=
  spread_values DefaultAttributeValues overrides.

Definition isValidAttributeKey (key : string) : bool :=
  String.eqb key "vitality" || String.eqb key "strength"
  || String.eqb key "agility" || String.eqb key "intellect"
  || String.eqb key "luck".

Definition createAttributeEntry (key : AttributeKey)
    (values : option PartialAttributeValues) : AttributeStateEntry :=
  let attributeValues := createAttributeValues values in
  {| meta := AttributeCatalog key;
     values := attributeValues;
     totalValue := calculateTotalAttributeValue attributeValues |}.

(** [createAttributesState]: the loop assigns [state[key]] for each of
    the five literals, starting from the empty object.  [overrides?.[key]]
    is the lookup in an optional, partial record. *)
Definition createAttributesState
    (overrides : option (gmap AttributeKey PartialAttributeValues))
    : gmap AttributeKey AttributeStateEntry :=
  let attributeKeys := [vitality; strength; agility; intellect; luck] in
  foldl (fun state key =>
           <[key := createAttributeEntry key (overrides ≫= (.!! key))]> state)
        ∅ attributeKeys.

(** [updateAttributeEntry] as a function on values: [None] is the run-time
    error of indexing a missing [currentState[key]]. *)
Definition updateAttributeEntry
    (currentState : gmap AttributeKey AttributeStateEntry)
    (key : AttributeKey) (newValues : PartialAttributeValues)
    : option AttributeStateEntry :=
  entry ← currentState !! key;
  let updatedValues := spread_values (values entry) (Some newValues) in
  Some {| meta := meta entry;
          values := updatedValues;
          totalValue := calculateTotalAttributeValue updatedValues |}.

Definition getAttributeIcon (key : AttributeKey) : string :=
  AttributeIconMap key.

Definition getAttributeMeta (key : AttributeKey) : AttributeMeta :=
  AttributeCatalog key.

(** [clampAttributeValue(value, min = 0, max = 999)] with all three
    arguments supplied; [clampAttributeValue_default] is the call that
    leaves the two bounds to their defaults. *)
Definition clampAttributeValue (value min max : Z) : Z :=
  Z.max min (Z.min max value).

Definition clampAttributeValue_default (value : Z) : Z :=
  clampAttributeValue value 0 999.

End Shared.

(** ** [updateAttributeEntry] over an object store

    TypeScript objects are references.  To state that a call leaves the
    caller's state object alone, the objects that [updateAttributeEntry]
    touches are placed in a store: the state object maps each key to the
    location of its entry, an entry holds the location of its values
    record.  Metadata records are immutable and kept by value. *)

Module SharedStore.
Import Shared.

Abbreviation loc := positive.

Inductive object : Type :=
| ValuesObject (v : AttributeValues)
| EntryObject (m : AttributeMeta) (values_ref : loc) (total : Z)
| StateObject (entries : gmap AttributeKey loc).

Abbreviation store := (gmap loc object).

(** An object literal allocates a new location. *)
Definition alloc (h : store) (o : object) : loc * store :=
  let l := fresh (dom h) in (l, <[l := o]> h).

(** The source function, statement by statement:
    [updatedValues = {...currentState[key].values, ...newValues}] and
    [{...currentState[key], values: updatedValues, totalValue: ...}]
    are two object literals; nothing is assigned to an existing
    object.  [None] is the run-time error of indexing a missing
    object. *)
Definition updateAttributeEntry (h : store) (currentState : loc)
    (key : AttributeKey) (newValues : PartialAttributeValues)
    : option (loc * store) :=
  match h !! currentState with
  | Some (StateObject entries) =>
      match entries !! key with
      | Some entry_ref =>
          match h !! entry_ref with
          | Some (EntryObject m values_ref _) =>
              match h !! values_ref with
              | Some (ValuesObject v) =>
                  let updatedValues := spread_values v (Some newValues) in
                  let r := alloc h (ValuesObject updatedValues) in
                  Some (alloc r.2
                          (EntryObject m r.1
                             (calculateTotalAttributeValue updatedValues)))
              | _ => None
              end
          | _ => None
          end
      | None => None
      end
  | _ => None
  end.

(** Reading an entry object, and [state[key]], by value. *)
Definition read_entry (h : store) (entry_ref : loc)
    : option AttributeStateEntry :=
  match h !! entry_ref with
  | Some (EntryObject m values_ref total) =>
      match h !! values_ref with
      | Some (ValuesObject v) =>
          Some {| meta := m; values := v; totalValue := total |}
      | _ => None
      end
  | _ => None
  end.

Definition read_key (h : store) (state_ref : loc) (key : AttributeKey)
    : option AttributeStateEntry :=
  match h !! state_ref with
  | Some (StateObject entries) => entries !! key ≫= read_entry h
  | _ => None
  end.

(** Storing a state value as objects, used to build concrete stores. *)
Definition store_entry (h : store) (e : AttributeStateEntry) : loc * store :=
  let r := alloc h (ValuesObject (values e)) in
  alloc r.2 (EntryObject (meta e) r.1 (totalValue e)).

Definition store_state (h : store)
    (st : gmap AttributeKey AttributeStateEntry) : loc * store :=
  let r :=
    foldl (fun (acc : gmap AttributeKey loc * store) key =>
             match st !! key with
             | Some e =>
                 let r := store_entry acc.2 e in (<[key := r.1]> acc.1, r.2)
             | None => acc
             end)
          (∅, h) ATTRIBUTE_KEYS in
  alloc r.2 (StateObject r.1).

End SharedStore.

(** ** compact-core.ts *)

Module Compact.

(** An entry of the compact [AttributesState]; [meta] is optional there. *)
Record AttributeStateEntry : Type := mkEntry {
  meta : option AttributeMeta;
  values : AttributeValues;
  totalValue : Z
}.

Definition AttributeCatalog (key : AttributeKey) : AttributeMeta :=
  match key with
  | vitality =>
      {| displayName := "Vitality";
         description := "Increases maximum health points.";
         icon := "rbxassetid://121291227474039";
         tooltip := Some "Higher vitality means more health and survivability" |}
  | strength =>
      {| displayName := "Strength";
         description := "Increases physical damage output.";
         icon := "rbxassetid://127745571044516";
         tooltip := Some "Higher strength means more damage with melee weapons" |}
  | agility =>
      {| displayName := "Agility";
         description := "Increases movement speed and dodge chance.";
         icon := "rbxassetid://73893872719367";
         tooltip := Some "Higher agility means faster movement and better evasion" |}
  | intellect =>
      {| displayName := "Intellect";
         description := "Increases mana pool and spell damage.";
         icon := "rbxassetid://107600003376684";
         tooltip := Some "Higher intellect means more mana and stronger spells" |}
  | luck =>
      {| displayName := "Luck";
         description := "Increases critical hit chance and rare item drops.";
         icon := "rbxassetid://134567890123456";
         tooltip := Some "Higher luck means better chances for critical hits and rare loot" |}
  end.

Definition calculateTotal (values : AttributeValues) : Z :=
  baseValue values + equipmentBonus values + effectBonus values.

Definition createValues (overrides : option PartialAttributeValues)
    : AttributeValues :=
  spread_values {| baseValue := 0; equipmentBonus := 0; effectBonus := 0 |}
                overrides.

Definition createState
    (overrides : option (gmap AttributeKey PartialAttributeValues))
    : gmap AttributeKey AttributeStateEntry :=
  foldl (fun state key =>
           let values := createValues (overrides ≫= (.!! key)) in
           <[key := {| meta := Some (AttributeCatalog key);
                       values := values;
                       totalValue := calculateTotal values |}]> state)
        ∅ ATTRIBUTE_KEYS.

Definition isValidKey (key : string) : bool :=
  bool_decide (key ∈ key_name <$> ATTRIBUTE_KEYS).

(** [clamp(value, min = 0, max = 9999)], all arguments supplied. *)
Definition clamp (value min max : Z) : Z :=
  Z.max min (Z.min max value).

Definition clamp_default (value : Z) : Z := clamp value 0 9999.

End Compact.

(** ** The reactive manager of compact-core.ts

    Fusion's objects, as the manager uses them:

    - [Value(x)] is a cell; [set(v)] does nothing when [v] is the value
      already held, and otherwise stores [v] and updates the dependents;
    - [Computed(f)] evaluates [f] when it is created and caches the
      result; an update re-evaluates [f] and reaches the dependents only
      when the cached value changed;
    - [Observer(c)] registers itself as a dependent of [c];
      [onChange(cb)] adds [cb] to its listeners and returns the function
      that removes it again; an updated observer runs its listeners at
      once.  An observer with listeners is kept alive by Fusion itself.

    The hooks [validate], [onAttributeChanged] and [persistState] are
    abstract: [validate] is a predicate that may read the (read-only)
    configuration; every call of a hook is recorded in a trace. *)

Module Reactive.
Import Compact.

Record AttributeManagerConfig : Type := mkConfig {
  initialValues_opt : option (gmap AttributeKey Z);
  autoPersist_opt : option bool;
  maxValue_opt : option Z;
  minValue_opt : option Z
}.

(** [Required<AttributeManagerConfig>] *)
Record RequiredConfig : Type := mkRequired {
  initialValues : gmap AttributeKey Z;
  autoPersist : bool;
  maxValue : Z;
  minValue : Z
}.

(** A [Computed<number>]: the cached value and the observers that
    depend on it (references into the manager's observer objects). *)
Record Computed : Type := mkComputed {
  cached : Z;
  dependentSet : list nat
}.

(** The closure passed to [onChange] in [setupObservers]: it captures
    the loop's [key] and the mutable local [prev]. *)
Record Listener : Type := mkListener {
  listener_key : AttributeKey;
  prev : Z
}.

Record Observer : Type := mkObserver {
  changeListeners : list Listener
}.

(** [ReactiveAttributeState]: [rvalues] holds the contents of the three
    [Value] cells. *)
Record ReactiveAttributeState : Type := mkReactive {
  rmeta : AttributeMeta;
  rvalues : AttributeValues;
  rtotalValue : Computed
}.

(** The manager.  [ReactiveAttributesState] is a record with one field
    per member of [AttributeKey], hence a function on the keys.
    [observers] is the private array of the class; it holds references
    (indices) to the observer objects, which live in [observerObjects]
    whether or not the array still mentions them. *)
Record AttributeManager : Type := mkManager {
  config : RequiredConfig;
  states : AttributeKey → ReactiveAttributeState;
  observers : list nat;
  observerObjects : list Observer
}.

Inductive Event : Type :=
| ValidateCalled (key : AttributeKey) (value : Z)
| AttributeChanged (key : AttributeKey) (oldValue newValue : Z)
| PersistState.

#[global] Instance Event_eq_dec : EqDecision Event.
Proof. solve_decision. Defined.

(** The change notifications of a trace, as [(key, old, new)]. *)
Definition notifications (t : list Event) : list (AttributeKey * Z * Z) :=
  omap (fun e => match e with
                 | AttributeChanged key o n => Some (key, o, n)
                 | _ => None
                 end) t.

Definition persists (t : list Event) : nat :=
  length (filter (fun e => e = PersistState) t).

(** Methods run on the manager and call hooks: a state monad that
    also collects the trace of hook calls. *)
Definition M (A : Type) : Type :=
  AttributeManager → A * AttributeManager * list Event.

Definition ret {A} (a : A) : M A := fun m => (a, m, []).

Definition bind {A B} (c : M A) (f : A → M B) : M B :=
  fun m =>
    let r := c m in
    let r' := f r.1.1 r.1.2 in
    (r'.1.1, r'.1.2, r.2 ++ r'.2).

Declare Scope manager_scope.
Delimit Scope manager_scope with manager.
Notation "'let*' x ':=' c 'in' k" := (bind c (fun x => k))
  (at level 10, x name, c at level 100, k at level 200) : manager_scope.
Notation "c ';;;' k" := (bind c (fun _ => k))
  (at level 100, k at level 200, right associativity) : manager_scope.
Local Open Scope manager_scope.

Definition emit (e : Event) : M unit := fun m => ((), m, [e]).
Definition gets {A} (f : AttributeManager → A) : M A := fun m => (f m, m, []).
Definition modifyM (f : AttributeManager → AttributeManager) : M unit :=
  fun m => ((), f m, []).

(** [for (const x of xs) body(x)] *)
Fixpoint forEach {A} (xs : list A) (body : A → M unit) : M unit :=
  match xs with
  | [] => ret ()
  | x :: xs' => body x ;;; forEach xs' body
  end.

(** Result, final manager and trace of a run. *)
Definition result {A} (r : A * AttributeManager * list Event) : A := r.1.1.
Definition final {A} (r : A * AttributeManager * list Event)
  : AttributeManager := r.1.2.
Definition trace {A} (r : A * AttributeManager * list Event)
  : list Event := r.2.

(** The three [Value] cells of a key. *)
Inductive Cell : Type := baseCell | equipmentCell | effectCell.

Definition cell_get (c : Cell) (v : AttributeValues) : Z :=
  match c with
  | baseCell => baseValue v
  | equipmentCell => equipmentBonus v
  | effectCell => effectBonus v
  end.

Definition cell_put (c : Cell) (x : Z) (v : AttributeValues)
    : AttributeValues :=
  match c with
  | baseCell =>
      {| baseValue := x; equipmentBonus := equipmentBonus v;
         effectBonus := effectBonus v |}
  | equipmentCell =>
      {| baseValue := baseValue v; equipmentBonus := x;
         effectBonus := effectBonus v |}
  | effectCell =>
      {| baseValue := baseValue v; equipmentBonus := equipmentBonus v;
         effectBonus := x |}
  end.

Definition set_values (key : AttributeKey) (v : AttributeValues)
    (m : AttributeManager) : AttributeManager :=
  let st := states m key in
  {| config := config m;
     states := <[key := {| rmeta := rmeta st; rvalues := v;
                           rtotalValue := rtotalValue st |}]> (states m);
     observers := observers m;
     observerObjects := observerObjects m |}.

Definition set_cached (key : AttributeKey) (x : Z)
    (m : AttributeManager) : AttributeManager :=
  let st := states m key in
  {| config := config m;
     states := <[key := {| rmeta := rmeta st; rvalues := rvalues st;
                           rtotalValue :=
                             {| cached := x;
                                dependentSet :=
                                  dependentSet (rtotalValue st) |} |}]>
                 (states m);
     observers := observers m;
     observerObjects := observerObjects m |}.

Definition set_observer (i : nat) (o : Observer)
    (m : AttributeManager) : AttributeManager :=
  {| config := config m;
     states := states m;
     observers := observers m;
     observerObjects := <[i := o]> (observerObjects m) |}.

(** The function given to [Computed] in [initializeStates]. *)
Definition computeTotal (cfg : RequiredConfig) (v : AttributeValues) : Z :=
  let total := baseValue v + equipmentBonus v + effectBonus v in
  clamp total (minValue cfg) (maxValue cfg).

(** [getValue(key)] reads the cached value of the [Computed]. *)
Definition getValue (m : AttributeManager) (key : AttributeKey) : Z :=
  cached (rtotalValue (states m key)).

(** The body of the [onChange] callback of [setupObservers], run for a
    listener [l]; it returns the listener with its [prev] updated. *)
Definition onChange_callback (l : Listener) : M Listener :=
  let* curr := gets (fun m => getValue m (listener_key l)) in
  emit (AttributeChanged (listener_key l) (prev l) curr) ;;;
  let* persist := gets (fun m => autoPersist (config m)) in
  (if persist then emit PersistState else ret ()) ;;;
  ret {| listener_key := listener_key l; prev := curr |}.

Fixpoint run_listeners (ls : list Listener) : M (list Listener) :=
  match ls with
  | [] => ret []
  | l :: ls' =>
      let* l1 := onChange_callback l in
      let* ls1 := run_listeners ls' in
      ret (l1 :: ls1)
  end.

(** An updated observer runs its listeners. *)
Definition Observer_update (i : nat) : M unit :=
  let* o := gets (fun m => observerObjects m !! i) in
  match o with
  | None => ret ()
  | Some o =>
      let* ls := run_listeners (changeListeners o) in
      modifyM (set_observer i {| changeListeners := ls |})
  end.

(** An updated [Computed] re-evaluates; its dependents are updated
    only when the value changed. *)
Definition Computed_update (key : AttributeKey) : M unit :=
  let* cfg := gets config in
  let* st := gets (fun m => states m key) in
  let newValue := computeTotal cfg (rvalues st) in
  if decide (newValue = cached (rtotalValue st)) then ret ()
  else
    modifyM (set_cached key newValue) ;;;
    forEach (dependentSet (rtotalValue st)) Observer_update.

(** [cell.set(newValue)] on one of the cells of [key]. *)
Definition Value_set (key : AttributeKey) (c : Cell) (newValue : Z)
    : M unit :=
  let* v := gets (fun m => rvalues (states m key)) in
  if decide (cell_get c v = newValue) then ret ()
  else
    modifyM (set_values key (cell_put c newValue v)) ;;;
    Computed_update key.

(** *** Construction *)

(** [{initialValues: {}, autoPersist: false, maxValue: 9999,
      minValue: 0, ...config}] *)
Definition resolveConfig (cfg : AttributeManagerConfig) : RequiredConfig :=
  {| initialValues := default ∅ (initialValues_opt cfg);
     autoPersist := default false (autoPersist_opt cfg);
     maxValue := default 9999 (maxValue_opt cfg);
     minValue := default 0 (minValue_opt cfg) |}.

(** [initializeStates]: the loop fills the field of every key; the
    [Computed] is evaluated when it is created and has no dependents
    yet. *)
Definition initializeStates (cfg : RequiredConfig)
    : AttributeKey → ReactiveAttributeState :=
  fun key =>
    let initial := default 0 (initialValues cfg !! key) in
    let v := {| baseValue := initial; equipmentBonus := 0;
                effectBonus := 0 |} in
    {| rmeta := AttributeCatalog key;
       rvalues := v;
       rtotalValue := {| cached := computeTotal cfg v;
                         dependentSet := [] |} |}.

(** One round of the loop of [setupObservers]: a new observer object
    on the key's [Computed], one listener whose [prev] starts at the
    current total, and the reference pushed on [observers].  The return
    value of [onChange] (the disconnect function) is dropped. *)
Definition setupObserver (key : AttributeKey) (m : AttributeManager)
    : AttributeManager :=
  let st := states m key in
  let i := length (observerObjects m) in
  let prev := cached (rtotalValue st) in
  {| config := config m;
     states :=
       <[key := {| rmeta := rmeta st; rvalues := rvalues st;
                   rtotalValue :=
                     {| cached := cached (rtotalValue st);
                        dependentSet :=
                          dependentSet (rtotalValue st) ++ [i] |} |}]>
         (states m);
     observers := observers m ++ [i];
     observerObjects :=
       observerObjects m
         ++ [{| changeListeners :=
                  [{| listener_key := key; prev := prev |}] |}] |}.

(** [pairs(this.states)] visits the five keys; the rounds are
    independent of one another, the declaration order is used. *)
Definition setupObservers (m : AttributeManager) : AttributeManager :=
  foldl (fun m key => setupObserver key m) m ATTRIBUTE_KEYS.

(** [new AttributeManager(config)] *)
Definition new (cfg : AttributeManagerConfig) : AttributeManager :=
  let config := resolveConfig cfg in
  setupObservers
    {| config := config;
       states := initializeStates config;
       observers := [];
       observerObjects := [] |}.

(** *** Public API *)

Definition getState (m : AttributeManager) (key : AttributeKey)
    : ReactiveAttributeState := states m key.

(** [exportData]: one record per key, read from the cells. *)
Definition exportData (m : AttributeManager)
    : gmap AttributeKey AttributeValues :=
  foldl (fun (data : gmap AttributeKey AttributeValues) key =>
           let state := states m key in
           <[key := {| baseValue := baseValue (rvalues state);
                       equipmentBonus := equipmentBonus (rvalues state);
                       effectBonus := effectBonus (rvalues state) |}]> data)
        ∅ ATTRIBUTE_KEYS.

(** [destroy]: the [forEach] has an empty body, [clear] empties the
    array. *)
Definition destroy (m : AttributeManager) : AttributeManager :=
  {| config := config m;
     states := states m;
     observers := [];
     observerObjects := observerObjects m |}.

(** A complete record seen as the partial one [loadData] tolerates. *)
Definition asPartial (v : AttributeValues) : PartialAttributeValues :=
  {| baseValue_opt := Some (baseValue v);
     equipmentBonus_opt := Some (equipmentBonus v);
     effectBonus_opt := Some (effectBonus v) |}.

Section Hooks.
(** [protected abstract validate(key, value): boolean] *)
Variable validate : RequiredConfig → AttributeKey → Z → bool.

Definition call_validate (key : AttributeKey) (value : Z) : M bool :=
  emit (ValidateCalled key value) ;;;
  gets (fun m => validate (config m) key value).

Definition setBase (key : AttributeKey) (value : Z) : M bool :=
  let* ok := call_validate key value in
  if negb ok then ret false
  else
    let* cfg := gets config in
    Value_set key baseCell (clamp value (minValue cfg) (maxValue cfg)) ;;;
    ret true.

Definition setEquipment (key : AttributeKey) (value : Z) : M bool :=
  let* ok := call_validate key value in
  if negb ok then ret false
  else Value_set key equipmentCell value ;;; ret true.

Definition setEffect (key : AttributeKey) (value : Z) : M bool :=
  let* ok := call_validate key value in
  if negb ok then ret false
  else Value_set key effectCell value ;;; ret true.

Definition modify (key : AttributeKey) (delta : Z) : M bool :=
  let* current := gets (fun m => baseValue (rvalues (states m key))) in
  setBase key (current + delta).

(** The body of the loop of [loadData] for one key of [data]; the
    three results are dropped.  [x ?? 0] is [default 0 x]. *)
Definition loadEntry (data : gmap AttributeKey PartialAttributeValues)
    (k : AttributeKey) : M unit :=
  match data !! k with
  | Some values =>
      setBase k (default 0 (baseValue_opt values)) ;;;
      setEquipment k (default 0 (equipmentBonus_opt values)) ;;;
      setEffect k (default 0 (effectBonus_opt values)) ;;;
      ret ()
  | None => ret ()
  end.

(** [loadData], with the order in which [pairs(data)] visits the keys
    made explicit: [pairs] promises no order. *)
Definition loadData_in (order : list AttributeKey)
    (data : gmap AttributeKey PartialAttributeValues) : M unit :=
  forEach order (loadEntry data).

Definition loadData (data : gmap AttributeKey PartialAttributeValues)
    : M unit :=
  loadData_in ATTRIBUTE_KEYS data.

End Hooks.

(** [SimpleAttributeManager.validate] *)
Definition SimpleAttributeManager_validate (cfg : RequiredConfig)
    (key : AttributeKey) (value : Z) : bool :=
  (minValue cfg <=? value) && (value <=? maxValue cfg).

End Reactive.

(** ** Vocabulary for the statements about the manager *)

Module ReactiveSpec.
Import Reactive.

(** An operation that leaves the configuration and the three cells of
    every key as they are. *)
Definition keeps_cells {A} (c : M A) : Prop :=
  ∀ m, config (final (c m)) = config m
       ∧ ∀ k, rvalues (states (final (c m)) k) = rvalues (states m k).

(** The cells of a key after the three setter calls that [loadData]
    makes for a record [values], each passing the validation gate on its
    own. *)
Definition loaded (validate : RequiredConfig → AttributeKey → Z → bool)
    (cfg : RequiredConfig) (key : AttributeKey) (old : AttributeValues)
    (values : PartialAttributeValues) : AttributeValues :=
  let b := default 0 (baseValue_opt values) in
  let q := default 0 (equipmentBonus_opt values) in
  let f := default 0 (effectBonus_opt values) in
  {| baseValue :=
       if validate cfg key b
       then Compact.clamp b (minValue cfg) (maxValue cfg)
       else baseValue old;
     equipmentBonus := if validate cfg key q then q else equipmentBonus old;
     effectBonus := if validate cfg key f then f else effectBonus old |}.

(** The shape in which the constructor leaves the manager and every
    method keeps it: the cached total of a key is the clamped sum of its
    cells, its one dependent is the observer created for it, and that
    observer has the one listener whose [prev] is the cached total. *)
Definition wired (m : AttributeManager) : Prop :=
  ∀ key,
    cached (rtotalValue (states m key))
      = computeTotal (config m) (rvalues (states m key))
    ∧ dependentSet (rtotalValue (states m key)) = [key_index key]
    ∧ observerObjects m !! key_index key
      = Some {| changeListeners :=
                  [{| listener_key := key;
                      prev := cached (rtotalValue (states m key)) |}] |}.

(** The trace of a write that moves the total of [key] from [old] to
    [new]. *)
Definition change_trace (cfg : RequiredConfig) (key : AttributeKey)
    (old new : Z) : list Event :=
  if decide (new = old) then []
  else AttributeChanged key old new
       :: (if autoPersist cfg then [PersistState] else []).

(** An operation that cannot tell a destroyed manager from a live one:
    on [destroy m] it returns the same result, calls the same hooks and
    ends in the destroyed final manager. *)
Definition destroy_blind {A} (c : M A) : Prop :=
  ∀ m, c (destroy m) = (result (c m), destroy (final (c m)), trace (c m)).

(** Validation policies used in the scenarios: one that rejects all,
    one that accepts all, and the [validate] of the custom manager of
    the package's README ([value >= 0 && value <= 100], whatever the
    configured bounds). *)
Definition validate_never (cfg : RequiredConfig) (key : AttributeKey)
    (value : Z) : bool := false.

Definition validate_always (cfg : RequiredConfig) (key : AttributeKey)
    (value : Z) : bool := true.

Definition MyAttributes_validate (cfg : RequiredConfig)
    (key : AttributeKey) (value : Z) : bool :=
  (0 <=? value) && (value <=? 100).

(** Configurations of the scenarios. *)
Definition config_default : AttributeManagerConfig :=
  {| initialValues_opt := None; autoPersist_opt := None;
     maxValue_opt := None; minValue_opt := None |}.

(** [{initialValues: {vitality: 10}, minValue: 0, maxValue: 100}] *)
Definition config_vitality10 : AttributeManagerConfig :=
  {| initialValues_opt := Some {[vitality := 10]}; autoPersist_opt := None;
     maxValue_opt := Some 100; minValue_opt := Some 0 |}.

(** [{initialValues: {vitality: 150}, maxValue: 100}] *)
Definition config_vitality150 : AttributeManagerConfig :=
  {| initialValues_opt := Some {[vitality := 150]}; autoPersist_opt := None;
     maxValue_opt := Some 100; minValue_opt := None |}.

(** [{initialValues: {vitality: 80}, maxValue: 50}] *)
Definition config_vitality80 : AttributeManagerConfig :=
  {| initialValues_opt := Some {[vitality := 80]}; autoPersist_opt := None;
     maxValue_opt := Some 50; minValue_opt := None |}.

(** [{minValue: 10, maxValue: 5}] *)
Definition config_inverted : AttributeManagerConfig :=
  {| initialValues_opt := None; autoPersist_opt := None;
     maxValue_opt := Some 5; minValue_opt := Some 10 |}.

(** [{autoPersist: true}] *)
Definition config_autoPersist : AttributeManagerConfig :=
  {| initialValues_opt := None; autoPersist_opt := Some true;
     maxValue_opt := None; minValue_opt := None |}.

End ReactiveSpec.


(** ** examples/usage-examples.ts: how callers apply an update *)

Module Usage.
Import Shared.

(** The statement of [demonstrateAttributeUpdates],
    [playerState[key] = updateAttributeEntry(playerState, key, newValues)]:
    the entry returned is assigned back to its key.  [None] is the
    run-time error of [updateAttributeEntry]. *)
Definition assignUpdatedEntry
    (playerState : gmap AttributeKey AttributeStateEntry)
    (key : AttributeKey) (newValues : PartialAttributeValues)
    : option (gmap AttributeKey AttributeStateEntry) :=
  entry ← updateAttributeEntry playerState key newValues;
  Some (<[key := entry]> playerState).

End Usage.

(** ** Vocabulary for the statements about the shared utilities *)

Module SharedSpec.
Import Shared.

(** [{...p1, ...p2}] on two partial records: a field of [p2] wins. *)
Definition merge_partial (p1 p2 : PartialAttributeValues)
    : PartialAttributeValues :=
  {| baseValue_opt :=
       match baseValue_opt p2 with
       | Some x => Some x
       | None => baseValue_opt p1
       end;
     equipmentBonus_opt :=
       match equipmentBonus_opt p2 with
       | Some x => Some x
       | None => equipmentBonus_opt p1
       end;
     effectBonus_opt :=
       match effectBonus_opt p2 with
       | Some x => Some x
       | None => effectBonus_opt p1
       end |}.

(** The empty object [{}] as a partial record. *)
Definition no_values : PartialAttributeValues :=
  {| baseValue_opt := None; equipmentBonus_opt := None;
     effectBonus_opt := None |}.

(** An entry whose stored total is the sum of its values and whose
    metadata is the catalog's record of its key. *)
Definition consistent_entry (key : AttributeKey) (e : AttributeStateEntry)
    : Prop :=
  meta e = AttributeCatalog key
  ∧ totalValue e
    = baseValue (values e) + equipmentBonus (values e)
      + effectBonus (values e).

(** A state with exactly the five keys, all entries consistent. *)
Definition consistent (st : gmap AttributeKey AttributeStateEntry) : Prop :=
  dom st = {[vitality; strength; agility; intellect; luck]}
  ∧ ∀ key e, st !! key = Some e → consistent_entry key e.

End SharedSpec.

(** ** Managers that the public API can produce *)

Module ReactiveReach.
Import Reactive.

(** The managers obtained from the constructor by calls of the public
    methods, under a validation policy; [loadData] in any order of
    visit. *)
Inductive reachable (validate : RequiredConfig → AttributeKey → Z → bool)
    : AttributeManager → Prop :=
| reach_new (cfg : AttributeManagerConfig) :
    reachable validate (new cfg)
| reach_setBase m key value :
    reachable validate m →
    reachable validate (final (setBase validate key value m))
| reach_setEquipment m key value :
    reachable validate m →
    reachable validate (final (setEquipment validate key value m))
| reach_setEffect m key value :
    reachable validate m →
    reachable validate (final (setEffect validate key value m))
| reach_modify m key delta :
    reachable validate m →
    reachable validate (final (modify validate key delta m))
| reach_loadData m order data :
    reachable validate m →
    reachable validate (final (loadData_in validate order data m))
| reach_destroy m :
    reachable validate m →
    reachable validate (destroy m).

(** A record whose three values the policy accepts for the key. *)
Definition all_accepted (validate : RequiredConfig → AttributeKey → Z → bool)
    (cfg : RequiredConfig) (key : AttributeKey) (v : AttributeValues)
    : Prop :=
  validate cfg key (baseValue v) = true
  ∧ validate cfg key (equipmentBonus v) = true
  ∧ validate cfg key (effectBonus v) = true.

(** The calls of [validate] in a trace, as [(key, value)]. *)
Definition validations (t : list Event) : list (AttributeKey * Z) :=
  omap (fun e => match e with
                 | ValidateCalled key value => Some (key, value)
                 | _ => None
                 end) t.

(** The three values that [loadData] submits for a key of the data, in
    the order of the calls. *)
Definition submitted (data : gmap AttributeKey PartialAttributeValues)
    (key : AttributeKey) : list (AttributeKey * Z) :=
  match data !! key with
  | Some values =>
      [(key, default 0 (baseValue_opt values));
       (key, default 0 (equipmentBonus_opt values));
       (key, default 0 (effectBonus_opt values))]
  | None => []
  end.

End ReactiveReach.

(** * Properties *)

(** ** The clamp utilities *)

Section ClampFacts.

Lemma clampAttributeValue_range (x lo hi : Z) :
  lo <= hi → lo <= Shared.clampAttributeValue x lo hi <= hi.
Proof. unfold Shared.clampAttributeValue. lia. Qed.

Lemma clampAttributeValue_fixed (x lo hi : Z) :
  lo <= x <= hi → Shared.clampAttributeValue x lo hi = x.
Proof. unfold Shared.clampAttributeValue. lia. Qed.

Lemma clamp_range (x lo hi : Z) :
  lo <= hi → lo <= Compact.clamp x lo hi <= hi.
Proof. unfold Compact.clamp. lia. Qed.

Lemma clamp_fixed (x lo hi : Z) :
  lo <= x <= hi → Compact.clamp x lo hi = x.
Proof. unfold Compact.clamp. lia. Qed.

Lemma clamp_lower (x lo hi : Z) : lo <= Compact.clamp x lo hi.
Proof. unfold Compact.clamp. lia. Qed.

Lemma clamp_inverted (x lo hi : Z) : hi < lo → Compact.clamp x lo hi = lo.
Proof. unfold Compact.clamp. lia. Qed.

End ClampFacts.

(** C8.  For all x, lo, hi with lo <= hi, both clamp utilities
    ([clampAttributeValue] of the shared utilities and [clamp] of the
    compact core) are idempotent and return a value in [lo, hi]; and
    [clampAttributeValue(1050, 0, 999) = 999],
    [clampAttributeValue(-5, 0, 999) = 0]. *)
Theorem clamp_idempotent_bounded (x lo hi : Z) :
  lo <= hi →
  Shared.clampAttributeValue (Shared.clampAttributeValue x lo hi) lo hi
    = Shared.clampAttributeValue x lo hi
  ∧ lo <= Shared.clampAttributeValue x lo hi <= hi
  ∧ Compact.clamp (Compact.clamp x lo hi) lo hi = Compact.clamp x lo hi
  ∧ lo <= Compact.clamp x lo hi <= hi
  ∧ Shared.clampAttributeValue 1050 0 999 = 999
  ∧ Shared.clampAttributeValue (-5) 0 999 = 0.
Proof.
  intros Hle. repeat split.
  - apply clampAttributeValue_fixed, clampAttributeValue_range, Hle.
  - apply clampAttributeValue_range, Hle.
  - apply clampAttributeValue_range, Hle.
  - apply clamp_fixed, clamp_range, Hle.
  - apply clamp_range, Hle.
  - apply clamp_range, Hle.
Qed.

Lemma clamp_idempotent_bounded_witness :
  0 <= 999
  ∧ Shared.clampAttributeValue (Shared.clampAttributeValue 1050 0 999) 0 999
      = Shared.clampAttributeValue 1050 0 999
  ∧ 0 <= Shared.clampAttributeValue 1050 0 999 <= 999.
Proof.
  split; [lia |].
  pose proof (clamp_idempotent_bounded 1050 0 999 ltac:(lia)) as (H1 & H2 & _).
  exact (conj H1 H2).
Defined.

(** ** The state builders *)

Section StateFacts.

Context (overrides : option (gmap AttributeKey PartialAttributeValues)).

Lemma createAttributesState_lookup (key : AttributeKey) :
  Shared.createAttributesState overrides !! key
  = Some (Shared.createAttributeEntry key (overrides ≫= (.!! key))).
Proof.
  unfold Shared.createAttributesState. cbn [foldl].
  destruct key;
    repeat (rewrite lookup_insert_ne by done); by rewrite lookup_insert_eq.
Qed.

Lemma createState_lookup (key : AttributeKey) :
  Compact.createState overrides !! key
  = Some {| Compact.meta := Some (Compact.AttributeCatalog key);
            Compact.values :=
              Compact.createValues (overrides ≫= (.!! key));
            Compact.totalValue :=
              Compact.calculateTotal
                (Compact.createValues (overrides ≫= (.!! key))) |}.
Proof.
  unfold Compact.createState, ATTRIBUTE_KEYS. cbn [foldl].
  destruct key;
    repeat (rewrite lookup_insert_ne by done); by rewrite lookup_insert_eq.
Qed.

Lemma createAttributesState_dom :
  dom (Shared.createAttributesState overrides)
  = ({[vitality; strength; agility; intellect; luck]} : gset AttributeKey).
Proof.
  unfold Shared.createAttributesState. cbn [foldl].
  rewrite !dom_insert_L, dom_empty_L. set_solver.
Qed.

Lemma createState_dom :
  dom (Compact.createState overrides)
  = ({[vitality; strength; agility; intellect; luck]} : gset AttributeKey).
Proof.
  unfold Compact.createState, ATTRIBUTE_KEYS. cbn [foldl].
  rewrite !dom_insert_L, dom_empty_L. set_solver.
Qed.

End StateFacts.

Lemma five_keys_size :
  size ({[vitality; strength; agility; intellect; luck]} : gset AttributeKey)
  = 5%nat.
Proof.
  vm_compute. reflexivity.
Qed.

(** C7.  For every overrides argument (absent, or a partial record of
    partial values), [createAttributesState] and [createState] return a
    mapping whose keys are exactly the five canonical ones, the entry of
    each key has [totalValue] equal to the sum of the three fields of its
    own values, and the entry is a function of the override given for
    that key alone (defaults overwritten field by field). *)
Theorem createState_five_keys_with_totals
    (overrides : option (gmap AttributeKey PartialAttributeValues)) :
  let shared := Shared.createAttributesState overrides in
  let compact := Compact.createState overrides in
  dom shared = {[vitality; strength; agility; intellect; luck]}
  ∧ size shared = 5%nat
  ∧ dom compact = {[vitality; strength; agility; intellect; luck]}
  ∧ size compact = 5%nat
  ∧ ∀ key : AttributeKey,
      (∃ e, shared !! key = Some e
            ∧ Shared.totalValue e
              = baseValue (Shared.values e)
                + equipmentBonus (Shared.values e)
                + effectBonus (Shared.values e)
            ∧ Shared.meta e = Shared.AttributeCatalog key
            ∧ Shared.values e
              = spread_values Shared.DefaultAttributeValues
                  (overrides ≫= (.!! key)))
      ∧ (∃ e, compact !! key = Some e
              ∧ Compact.totalValue e
                = baseValue (Compact.values e)
                  + equipmentBonus (Compact.values e)
                  + effectBonus (Compact.values e)
              ∧ Compact.meta e = Some (Compact.AttributeCatalog key)
              ∧ Compact.values e
                = spread_values (mkValues 0 0 0) (overrides ≫= (.!! key))).
Proof.
  intros shared compact. subst shared compact.
  split; [apply createAttributesState_dom |].
  split; [rewrite <- size_dom, createAttributesState_dom; apply five_keys_size |].
  split; [apply createState_dom |].
  split; [rewrite <- size_dom, createState_dom; apply five_keys_size |].
  intros key. split.
  - eexists. split; [apply createAttributesState_lookup |]. done.
  - eexists. split; [apply createState_lookup |]. done.
Qed.

(** ** [updateAttributeEntry] and the caller's objects *)

Section StoreFacts.
Import SharedStore.

Lemma alloc_fresh (h : store) (o : object) : h !! (alloc h o).1 = None.
Proof.
  unfold alloc. cbn [fst]. apply not_elem_of_dom, is_fresh.
Qed.

Lemma alloc_lookup_new (h : store) (o : object) :
  (alloc h o).2 !! (alloc h o).1 = Some o.
Proof. unfold alloc. cbn [fst snd]. apply lookup_insert_eq. Qed.

(** Allocation writes to no existing location. *)
Lemma alloc_preserves (h : store) (o : object) (l : loc) :
  is_Some (h !! l) → (alloc h o).2 !! l = h !! l.
Proof.
  intros Hl. unfold alloc. cbn [snd].
  apply lookup_insert_ne. intros <-.
  pose proof (is_fresh (dom h)) as Hf.
  apply Hf, elem_of_dom, Hl.
Qed.

Lemma read_entry_preserved (h h' : store) (l : loc) e :
  (∀ l', is_Some (h !! l') → h' !! l' = h !! l') →
  read_entry h l = Some e → read_entry h' l = Some e.
Proof.
  intros Hframe. unfold read_entry.
  destruct (h !! l) as [[ | m vr t | ] | ] eqn:Hl; try done.
  rewrite (Hframe l), Hl by (rewrite Hl; eauto).
  destruct (h !! vr) as [[ v | | ] | ] eqn:Hv; try done.
  rewrite (Hframe vr), Hv by (rewrite Hv; eauto). done.
Qed.

Lemma read_key_preserved (h h' : store) (s : loc) key e :
  (∀ l', is_Some (h !! l') → h' !! l' = h !! l') →
  read_key h s key = Some e → read_key h' s key = Some e.
Proof.
  intros Hframe. unfold read_key.
  destruct (h !! s) as [[ | | entries] | ] eqn:Hs; try done.
  rewrite (Hframe s), Hs by (rewrite Hs; eauto).
  destruct (entries !! key) as [l | ]; cbn; [| done].
  by apply read_entry_preserved.
Qed.

End StoreFacts.

(** C6.  [updateAttributeEntry(state, key, partial)], run on a store that
    holds the caller's state object with a readable entry [e] at [key],
    returns normally; it writes to no object that existed before the call
    (so whatever [state[k]] read before, for any [k], it reads after);
    the entry it returns is a new object (as is its values record) whose
    metadata is that of [e], whose values are those of [e] overwritten by
    the fields present in [partial], and whose [totalValue] is the sum of
    these merged fields. *)
Theorem updateAttributeEntry_never_mutates
    (h : SharedStore.store) (currentState : SharedStore.loc)
    (key : AttributeKey) (newValues : PartialAttributeValues)
    (e : Shared.AttributeStateEntry) :
  SharedStore.read_key h currentState key = Some e →
  ∃ (entry_ref : SharedStore.loc) (h' : SharedStore.store),
    SharedStore.updateAttributeEntry h currentState key newValues
      = Some (entry_ref, h')
    ∧ h !! entry_ref = None
    ∧ (∀ l, is_Some (h !! l) → h' !! l = h !! l)
    ∧ (∀ k e', SharedStore.read_key h currentState k = Some e' →
               SharedStore.read_key h' currentState k = Some e')
    ∧ ∃ updated,
        SharedStore.read_entry h' entry_ref = Some updated
        ∧ Shared.updateAttributeEntry {[key := e]} key newValues
          = Some updated
        ∧ Shared.meta updated = Shared.meta e
        ∧ baseValue (Shared.values updated)
          = default (baseValue (Shared.values e)) (baseValue_opt newValues)
        ∧ equipmentBonus (Shared.values updated)
          = default (equipmentBonus (Shared.values e))
              (equipmentBonus_opt newValues)
        ∧ effectBonus (Shared.values updated)
          = default (effectBonus (Shared.values e))
              (effectBonus_opt newValues)
        ∧ Shared.totalValue updated
          = baseValue (Shared.values updated)
            + equipmentBonus (Shared.values updated)
            + effectBonus (Shared.values updated).
Proof.
  intros Hread.
  unfold SharedStore.read_key in Hread.
  unfold SharedStore.updateAttributeEntry.
  destruct (h !! currentState) as [[ | | entries] | ] eqn:Hs; try done.
  destruct (entries !! key) as [l | ] eqn:Hk; cbn in Hread; [| done].
  unfold SharedStore.read_entry in Hread.
  destruct (h !! l) as [[ | m vr t | ] | ] eqn:Hl; try done.
  destruct (h !! vr) as [[ v | | ] | ] eqn:Hv; try done.
  injection Hread as <-. cbn [Shared.values Shared.meta].
  set (updatedValues := spread_values v (Some newValues)).
  set (r1 := SharedStore.alloc h (SharedStore.ValuesObject updatedValues)).
  set (r2 := SharedStore.alloc r1.2
               (SharedStore.EntryObject m r1.1
                  (Shared.calculateTotalAttributeValue updatedValues))).
  assert (Hframe : ∀ l', is_Some (h !! l') → r2.2 !! l' = h !! l').
  { intros l' Hl'. subst r2.
    rewrite alloc_preserves; subst r1.
    - by apply alloc_preserves.
    - rewrite alloc_preserves; done. }
  exists r2.1, r2.2. split; [by destruct r2 |].
  split.
  { destruct (h !! r2.1) eqn:Hold; [| done].
    assert (Hnew : r1.2 !! r2.1 = None) by apply alloc_fresh.
    subst r1. rewrite alloc_preserves in Hnew by (rewrite Hold; eauto).
    congruence. }
  split; [exact Hframe |].
  split.
  { intros k e' He'. by eapply read_key_preserved. }
  eexists. split.
  { unfold SharedStore.read_entry. subst r2.
    rewrite alloc_lookup_new.
    rewrite alloc_preserves by (subst r1; rewrite alloc_lookup_new; eauto).
    subst r1. rewrite alloc_lookup_new. reflexivity. }
  split.
  { unfold Shared.updateAttributeEntry. rewrite lookup_singleton_eq. done. }
  done.
Qed.

Lemma updateAttributeEntry_never_mutates_witness :
  let r := SharedStore.store_state ∅ (Shared.createAttributesState None) in
  let newValues := {| baseValue_opt := None; equipmentBonus_opt := Some 8;
                      effectBonus_opt := None |} in
  SharedStore.read_key r.2 r.1 strength
    = Some (Shared.createAttributeEntry strength None)
  ∧ ∃ entry_ref h',
      SharedStore.updateAttributeEntry r.2 r.1 strength newValues
        = Some (entry_ref, h')
      ∧ r.2 !! entry_ref = None
      ∧ (Shared.totalValue <$> SharedStore.read_entry h' entry_ref) = Some 20.
Proof.
  intros r newValues.
  assert (Hread : SharedStore.read_key r.2 r.1 strength
                  = Some (Shared.createAttributeEntry strength None))
    by (vm_compute; reflexivity).
  split; [exact Hread |].
  destruct (updateAttributeEntry_never_mutates r.2 r.1 strength newValues _
              Hread)
    as (l & h' & Hrun & Hnew & _ & _ & u & Hu & _ & _ & Hb & He & Hf & Ht).
  exists l, h'. split; [exact Hrun |]. split; [exact Hnew |].
  rewrite Hu. cbn [fmap option_fmap option_map]. f_equal.
  rewrite Ht, Hb, He, Hf. reflexivity.
Defined.

(** ** The reactive manager: what an operation does to the cells *)

Section ManagerFrame.
Import Reactive ReactiveSpec.
Local Open Scope manager_scope.

Lemma final_bind {A B} (c : M A) (f : A → M B) (m : AttributeManager) :
  final (bind c f m) = final (f (result (c m)) (final (c m))).
Proof. reflexivity. Qed.

Lemma result_bind {A B} (c : M A) (f : A → M B) (m : AttributeManager) :
  result (bind c f m) = result (f (result (c m)) (final (c m))).
Proof. reflexivity. Qed.

Lemma trace_bind {A B} (c : M A) (f : A → M B) (m : AttributeManager) :
  trace (bind c f m)
  = trace (c m) ++ trace (f (result (c m)) (final (c m))).
Proof. reflexivity. Qed.

Lemma keeps_ret {A} (a : A) : keeps_cells (ret a).
Proof. by intros m. Qed.

Lemma keeps_emit (e : Event) : keeps_cells (emit e).
Proof. by intros m. Qed.

Lemma keeps_gets {A} (f : AttributeManager → A) : keeps_cells (gets f).
Proof. by intros m. Qed.

Lemma keeps_bind {A B} (c : M A) (f : A → M B) :
  keeps_cells c → (∀ a, keeps_cells (f a)) → keeps_cells (bind c f).
Proof.
  intros Hc Hf m. rewrite final_bind.
  destruct (Hc m) as [Hc1 Hc2].
  destruct (Hf (result (c m)) (final (c m))) as [Hf1 Hf2].
  split; [congruence |]. intros k. by rewrite Hf2.
Qed.

Lemma keeps_forEach {A} (xs : list A) (body : A → M unit) :
  (∀ x, keeps_cells (body x)) → keeps_cells (forEach xs body).
Proof.
  intros Hbody. induction xs as [| x xs IH]; cbn [forEach].
  - apply keeps_ret.
  - apply keeps_bind; [apply Hbody | intros _; exact IH].
Qed.

Lemma keeps_set_cached (key : AttributeKey) (x : Z) :
  keeps_cells (modifyM (set_cached key x)).
Proof.
  intros m. split; [done |]. intros k. cbn.
  unfold insert, fn_insert. by case_decide; subst.
Qed.

Lemma keeps_set_observer (i : nat) (o : Observer) :
  keeps_cells (modifyM (set_observer i o)).
Proof. by intros m. Qed.

Lemma keeps_onChange_callback (l : Listener) :
  keeps_cells (onChange_callback l).
Proof.
  unfold onChange_callback.
  repeat first
    [ apply keeps_bind | apply keeps_gets | apply keeps_emit
    | apply keeps_ret | intros [] | intros ? ].
Qed.

Lemma keeps_run_listeners (ls : list Listener) :
  keeps_cells (run_listeners ls).
Proof.
  induction ls as [| l ls IH]; cbn [run_listeners].
  - apply keeps_ret.
  - apply keeps_bind; [apply keeps_onChange_callback | intros l1].
    apply keeps_bind; [exact IH | intros ls1; apply keeps_ret].
Qed.

Lemma keeps_Observer_update (i : nat) : keeps_cells (Observer_update i).
Proof.
  unfold Observer_update.
  apply keeps_bind; [apply keeps_gets | intros [o |]].
  - apply keeps_bind; [apply keeps_run_listeners | intros ls].
    apply keeps_set_observer.
  - apply keeps_ret.
Qed.

Lemma keeps_Computed_update (key : AttributeKey) :
  keeps_cells (Computed_update key).
Proof.
  unfold Computed_update.
  apply keeps_bind; [apply keeps_gets | intros cfg].
  apply keeps_bind; [apply keeps_gets | intros st].
  case_decide; [apply keeps_ret |].
  apply keeps_bind; [apply keeps_set_cached | intros _].
  apply keeps_forEach, keeps_Observer_update.
Qed.

Lemma cell_put_get (c : Cell) (x : Z) (v : AttributeValues) :
  cell_get c v = x → cell_put c x v = v.
Proof. intros <-. by destruct c, v. Qed.

Lemma Value_set_config (key : AttributeKey) (c : Cell) (x : Z)
    (m : AttributeManager) :
  config (final (Value_set key c x m)) = config m.
Proof.
  unfold Value_set. rewrite final_bind. cbn [gets result final fst snd].
  case_decide; [done |].
  rewrite final_bind.
  by rewrite (proj1 (keeps_Computed_update key _)).
Qed.

(** [Value_set] writes the one cell and no other. *)
Lemma Value_set_values (key : AttributeKey) (c : Cell) (x : Z)
    (m : AttributeManager) (k : AttributeKey) :
  rvalues (states (final (Value_set key c x m)) k)
  = if decide (k = key) then cell_put c x (rvalues (states m key))
    else rvalues (states m k).
Proof.
  unfold Value_set. rewrite final_bind. cbn [gets result final fst snd].
  case_decide as Hsame.
  - cbn [ret final fst snd]. case_decide; subst; [| done].
    by rewrite cell_put_get.
  - rewrite final_bind.
    rewrite (proj2 (keeps_Computed_update key _)).
    cbn. unfold insert, fn_insert. by repeat case_decide; subst.
Qed.

End ManagerFrame.

(** ** The setters *)

Section SetterFacts.
Import Reactive.
Local Open Scope manager_scope.

Variable validate : RequiredConfig → AttributeKey → Z → bool.

Lemma setBase_rejected (key : AttributeKey) (value : Z)
    (m : AttributeManager) :
  validate (config m) key value = false →
  setBase validate key value m = (false, m, [ValidateCalled key value]).
Proof.
  intros Hv. unfold setBase, call_validate, bind, emit, gets.
  cbn [fst snd]. rewrite Hv. reflexivity.
Qed.

Lemma setEquipment_rejected (key : AttributeKey) (value : Z)
    (m : AttributeManager) :
  validate (config m) key value = false →
  setEquipment validate key value m
  = (false, m, [ValidateCalled key value]).
Proof.
  intros Hv. unfold setEquipment, call_validate, bind, emit, gets.
  cbn [fst snd]. rewrite Hv. reflexivity.
Qed.

Lemma setEffect_rejected (key : AttributeKey) (value : Z)
    (m : AttributeManager) :
  validate (config m) key value = false →
  setEffect validate key value m = (false, m, [ValidateCalled key value]).
Proof.
  intros Hv. unfold setEffect, call_validate, bind, emit, gets.
  cbn [fst snd]. rewrite Hv. reflexivity.
Qed.

(** An accepted setter is the write of its cell. *)
Lemma setBase_accepted (key : AttributeKey) (value : Z)
    (m : AttributeManager) :
  validate (config m) key value = true →
  result (setBase validate key value m) = true
  ∧ final (setBase validate key value m)
    = final (Value_set key baseCell
               (Compact.clamp value (minValue (config m))
                  (maxValue (config m))) m)
  ∧ trace (setBase validate key value m)
    = ValidateCalled key value
      :: trace (Value_set key baseCell
                  (Compact.clamp value (minValue (config m))
                     (maxValue (config m))) m).
Proof.
  intros Hv. unfold setBase, call_validate, bind, emit, gets, ret.
  unfold result, final, trace. cbn [fst snd]. rewrite Hv.
  cbn [negb fst snd app]. by rewrite app_nil_r.
Qed.

Lemma setEquipment_accepted (key : AttributeKey) (value : Z)
    (m : AttributeManager) :
  validate (config m) key value = true →
  result (setEquipment validate key value m) = true
  ∧ final (setEquipment validate key value m)
    = final (Value_set key equipmentCell value m)
  ∧ trace (setEquipment validate key value m)
    = ValidateCalled key value
      :: trace (Value_set key equipmentCell value m).
Proof.
  intros Hv. unfold setEquipment, call_validate, bind, emit, gets, ret.
  unfold result, final, trace. cbn [fst snd]. rewrite Hv.
  cbn [negb fst snd app]. by rewrite app_nil_r.
Qed.

Lemma setEffect_accepted (key : AttributeKey) (value : Z)
    (m : AttributeManager) :
  validate (config m) key value = true →
  result (setEffect validate key value m) = true
  ∧ final (setEffect validate key value m)
    = final (Value_set key effectCell value m)
  ∧ trace (setEffect validate key value m)
    = ValidateCalled key value :: trace (Value_set key effectCell value m).
Proof.
  intros Hv. unfold setEffect, call_validate, bind, emit, gets, ret.
  unfold result, final, trace. cbn [fst snd]. rewrite Hv.
  cbn [negb fst snd app]. by rewrite app_nil_r.
Qed.

(** The cells after a setter, accepted or not. *)
Lemma setBase_values (key : AttributeKey) (value : Z)
    (m : AttributeManager) (k : AttributeKey) :
  rvalues (states (final (setBase validate key value m)) k)
  = if decide (k = key) then
      if validate (config m) key value then
        cell_put baseCell
          (Compact.clamp value (minValue (config m)) (maxValue (config m)))
          (rvalues (states m key))
      else rvalues (states m key)
    else rvalues (states m k).
Proof.
  destruct (validate (config m) key value) eqn:Hv.
  - destruct (setBase_accepted key value m Hv) as (_ & -> & _).
    apply Value_set_values.
  - rewrite setBase_rejected by done. cbn. by case_decide; subst.
Qed.

Lemma setEquipment_values (key : AttributeKey) (value : Z)
    (m : AttributeManager) (k : AttributeKey) :
  rvalues (states (final (setEquipment validate key value m)) k)
  = if decide (k = key) then
      if validate (config m) key value then
        cell_put equipmentCell value (rvalues (states m key))
      else rvalues (states m key)
    else rvalues (states m k).
Proof.
  destruct (validate (config m) key value) eqn:Hv.
  - destruct (setEquipment_accepted key value m Hv) as (_ & -> & _).
    apply Value_set_values.
  - rewrite setEquipment_rejected by done. cbn. by case_decide; subst.
Qed.

Lemma setEffect_values (key : AttributeKey) (value : Z)
    (m : AttributeManager) (k : AttributeKey) :
  rvalues (states (final (setEffect validate key value m)) k)
  = if decide (k = key) then
      if validate (config m) key value then
        cell_put effectCell value (rvalues (states m key))
      else rvalues (states m key)
    else rvalues (states m k).
Proof.
  destruct (validate (config m) key value) eqn:Hv.
  - destruct (setEffect_accepted key value m Hv) as (_ & -> & _).
    apply Value_set_values.
  - rewrite setEffect_rejected by done. cbn. by case_decide; subst.
Qed.

Lemma setBase_config (key : AttributeKey) (value : Z)
    (m : AttributeManager) :
  config (final (setBase validate key value m)) = config m.
Proof.
  destruct (validate (config m) key value) eqn:Hv.
  - destruct (setBase_accepted key value m Hv) as (_ & -> & _).
    apply Value_set_config.
  - by rewrite setBase_rejected.
Qed.

Lemma setEquipment_config (key : AttributeKey) (value : Z)
    (m : AttributeManager) :
  config (final (setEquipment validate key value m)) = config m.
Proof.
  destruct (validate (config m) key value) eqn:Hv.
  - destruct (setEquipment_accepted key value m Hv) as (_ & -> & _).
    apply Value_set_config.
  - by rewrite setEquipment_rejected.
Qed.

Lemma setEffect_config (key : AttributeKey) (value : Z)
    (m : AttributeManager) :
  config (final (setEffect validate key value m)) = config m.
Proof.
  destruct (validate (config m) key value) eqn:Hv.
  - destruct (setEffect_accepted key value m Hv) as (_ & -> & _).
    apply Value_set_config.
  - by rewrite setEffect_rejected.
Qed.

(** A write whose recomputed total is the cached one reaches no
    observer. *)
Lemma Value_set_silent (key : AttributeKey) (c : Cell) (x : Z)
    (m : AttributeManager) :
  computeTotal (config m) (cell_put c x (rvalues (states m key)))
    = getValue m key →
  trace (Value_set key c x m) = [].
Proof.
  intros Hsame. unfold Value_set, bind, gets, trace. cbn [fst snd].
  case_decide; [done |].
  unfold Computed_update, modifyM, bind, gets. cbn [fst snd app].
  unfold set_values. cbn [config states].
  rewrite !(fn_lookup_insert (A:=AttributeKey)). cbn [rvalues rtotalValue].
  unfold getValue in Hsame. rewrite decide_True by exact Hsame. done.
Qed.

End SetterFacts.

(** ** [exportData] and [loadData] *)

Section LoadFacts.
Import Reactive ReactiveSpec.
Local Open Scope manager_scope.

Variable validate : RequiredConfig → AttributeKey → Z → bool.

Lemma exportData_lookup (m : AttributeManager) (key : AttributeKey) :
  exportData m !! key = Some (rvalues (states m key)).
Proof.
  unfold exportData, ATTRIBUTE_KEYS. cbn [foldl].
  destruct key;
    repeat (rewrite lookup_insert_ne by done);
    rewrite lookup_insert_eq; f_equal;
    by destruct (rvalues (states m _)).
Qed.

Lemma loadEntry_config (data : gmap AttributeKey PartialAttributeValues)
    (k : AttributeKey) (m : AttributeManager) :
  config (final (loadEntry validate data k m)) = config m.
Proof.
  unfold loadEntry. destruct (data !! k) as [values |]; [| done].
  rewrite !final_bind. cbn [ret final fst snd].
  by rewrite setEffect_config, setEquipment_config, setBase_config.
Qed.

Lemma loadEntry_values (data : gmap AttributeKey PartialAttributeValues)
    (k : AttributeKey) (m : AttributeManager) (k' : AttributeKey) :
  rvalues (states (final (loadEntry validate data k m)) k')
  = match data !! k with
    | Some values =>
        if decide (k' = k)
        then loaded validate (config m) k (rvalues (states m k)) values
        else rvalues (states m k')
    | None => rvalues (states m k')
    end.
Proof.
  unfold loadEntry. destruct (data !! k) as [values |]; [| done].
  rewrite !final_bind. cbn [ret final fst snd].
  rewrite setEffect_values, !setEquipment_values, !setBase_values.
  rewrite !setEquipment_config, !setBase_config.
  destruct (decide (k' = k)) as [-> | Hne]; [| done].
  destruct (decide (k = k)); [| done]. unfold loaded.
  destruct (rvalues (states m k)) as [b0 q0 f0].
  by repeat (destruct (validate _ _ _)).
Qed.

Lemma loadData_in_config (order : list AttributeKey)
    (data : gmap AttributeKey PartialAttributeValues)
    (m : AttributeManager) :
  config (final (loadData_in validate order data m)) = config m.
Proof.
  unfold loadData_in. revert m.
  induction order as [| k ks IH]; intros m; cbn [forEach]; [done |].
  rewrite final_bind, IH. apply loadEntry_config.
Qed.

(** Whatever the order of the visit, a key that is visited once ends
    with the cells [loaded] computes from its own record; the others
    keep theirs. *)
Lemma loadData_in_values (order : list AttributeKey)
    (data : gmap AttributeKey PartialAttributeValues)
    (m : AttributeManager) (k' : AttributeKey) :
  NoDup order →
  rvalues (states (final (loadData_in validate order data m)) k')
  = match data !! k' with
    | Some values =>
        if decide (k' ∈ order)
        then loaded validate (config m) k' (rvalues (states m k')) values
        else rvalues (states m k')
    | None => rvalues (states m k')
    end.
Proof.
  unfold loadData_in. intros Hnd. revert m.
  induction Hnd as [| k ks Hk Hnd IH]; intros m; cbn [forEach].
  - cbn. destruct (data !! k'); [| done].
    rewrite decide_False; [done | apply not_elem_of_nil].
  - rewrite final_bind, IH, loadEntry_config, loadEntry_values.
    destruct (data !! k') as [values |] eqn:Hk'.
    + destruct (decide (k' = k)) as [-> | Hne].
      * rewrite Hk'. rewrite (decide_False (P := k ∈ ks)) by done.
        rewrite decide_True; [done | left].
      * destruct (data !! k);
          (destruct (decide (k' ∈ ks));
           [ rewrite decide_True; [done | by right]
           | rewrite decide_False; [done |];
             rewrite elem_of_cons; tauto ]).
    + destruct (data !! k) as [values |] eqn:Hk0; [| done].
      case_decide; [| done]. subst. congruence.
Qed.

Lemma canonical_order (order : list AttributeKey) :
  order ≡ₚ ATTRIBUTE_KEYS → NoDup order ∧ ∀ k, k ∈ order.
Proof.
  intros Hp. split.
  - rewrite Hp. apply (bool_decide_unpack _). by vm_compute.
  - intros k. rewrite Hp.
    destruct k; apply (bool_decide_unpack _); by vm_compute.
Qed.

Lemma loadData_in_loaded (order : list AttributeKey)
    (data : gmap AttributeKey PartialAttributeValues)
    (m : AttributeManager) (k : AttributeKey) :
  order ≡ₚ ATTRIBUTE_KEYS →
  rvalues (states (final (loadData_in validate order data m)) k)
  = match data !! k with
    | Some values =>
        loaded validate (config m) k (rvalues (states m k)) values
    | None => rvalues (states m k)
    end.
Proof.
  intros Hp. destruct (canonical_order order Hp) as [Hnd Hall].
  rewrite loadData_in_values by done.
  destruct (data !! k); [| done]. by rewrite decide_True.
Qed.

End LoadFacts.

(** ** The wiring of observers, and what a write notifies *)

Section WiringFacts.
Import Reactive ReactiveSpec.
Local Open Scope manager_scope.

Lemma key_index_inj (k k' : AttributeKey) :
  key_index k = key_index k' → k = k'.
Proof. by destruct k, k'. Qed.

Lemma wired_new (cfg : AttributeManagerConfig) : wired (new cfg).
Proof.
  intros key. unfold new, setupObservers, ATTRIBUTE_KEYS. cbn [foldl].
  destruct key; cbn; done.
Qed.

Lemma wired_destroy (m : AttributeManager) : wired m → wired (destroy m).
Proof. intros Hw key. exact (Hw key). Qed.

Lemma Observer_update_single (i : nat) (key : AttributeKey) (p : Z)
    (m : AttributeManager) :
  observerObjects m !! i
    = Some {| changeListeners := [{| listener_key := key; prev := p |}] |} →
  Observer_update i m
  = ((),
     set_observer i
       {| changeListeners :=
            [{| listener_key := key; prev := getValue m key |}] |} m,
     AttributeChanged key p (getValue m key)
     :: (if autoPersist (config m) then [PersistState] else [])).
Proof.
  intros Ho. unfold Observer_update, bind, gets. cbn [fst snd].
  rewrite Ho. cbn [changeListeners run_listeners].
  unfold onChange_callback, bind, gets, emit, ret, modifyM.
  cbn [fst snd listener_key prev app].
  by destruct (autoPersist (config m)).
Qed.

Lemma Value_set_wired (key : AttributeKey) (c : Cell) (x : Z)
    (m : AttributeManager) :
  wired m →
  let total :=
    computeTotal (config m) (cell_put c x (rvalues (states m key))) in
  wired (final (Value_set key c x m))
  ∧ getValue (final (Value_set key c x m)) key = total
  ∧ trace (Value_set key c x m)
    = change_trace (config m) key (getValue m key) total.
Proof.
  intros Hw total. destruct (Hw key) as (Hc & Hd & Ho).
  unfold Value_set, bind, gets, final, trace. cbn [fst snd].
  case_decide as Hcell.
  - cbn [ret fst snd]. subst total. rewrite cell_put_get by done.
    unfold change_trace, getValue. rewrite decide_True by done. done.
  - unfold Computed_update, modifyM, bind, gets. cbn [fst snd app].
    unfold set_values. cbn [config states].
    rewrite !(fn_lookup_insert (A:=AttributeKey)).
    cbn [rvalues rtotalValue]. fold total.
    unfold change_trace, getValue.
    destruct (decide (total = cached (rtotalValue (states m key))))
      as [Hsame | Hdiff].
    + cbn [ret fst snd]. split; [| split].
      * intros k. cbn [config states observerObjects].
        destruct (decide (k = key)) as [-> | Hne].
        -- rewrite (fn_lookup_insert (A:=AttributeKey)).
           cbn [rvalues rtotalValue].
           split; [by rewrite <- Hsame |]. by split.
        -- rewrite fn_lookup_insert_ne by done. apply Hw.
      * cbn [states]. rewrite (fn_lookup_insert (A:=AttributeKey)).
        by cbn [rtotalValue].
      * done.
    + rewrite Hd. cbn [forEach]. unfold bind. cbn [fst snd].
      rewrite (Observer_update_single (key_index key) key
                 (cached (rtotalValue (states m key)))) by exact Ho.
      unfold ret. cbn [fst snd]. unfold set_cached, set_observer, getValue.
      cbn [config states observerObjects observers].
      rewrite !(fn_lookup_insert (A:=AttributeKey)).
      cbn [rvalues rtotalValue cached dependentSet rmeta].
      split; [| split].
      * intros k. cbn [config states observerObjects].
        destruct (decide (k = key)) as [-> | Hne].
        -- rewrite !(fn_lookup_insert (A:=AttributeKey)).
           cbn [rvalues rtotalValue cached dependentSet].
           split; [done |]. split; [done |].
           apply list_lookup_insert_eq. by eapply lookup_lt_Some.
        -- rewrite !fn_lookup_insert_ne by done.
           destruct (Hw k) as (Hc' & Hd' & Ho').
           split; [done |]. split; [done |].
           rewrite list_lookup_insert_ne; [done |].
           intros Heq. by apply Hne, key_index_inj.
      * done.
      * by rewrite app_nil_r.
Qed.

End WiringFacts.

(** ** [destroy] *)

Section DestroyFacts.
Import Reactive ReactiveSpec.
Local Open Scope manager_scope.

Lemma blind_ret {A} (a : A) : destroy_blind (ret a).
Proof. by intros m. Qed.

Lemma blind_emit (e : Event) : destroy_blind (emit e).
Proof. by intros m. Qed.

Lemma blind_gets {A} (f : AttributeManager → A) :
  (∀ m, f (destroy m) = f m) → destroy_blind (gets f).
Proof. intros Hf m. unfold gets, result, final, trace. by rewrite Hf. Qed.

Lemma blind_modifyM (f : AttributeManager → AttributeManager) :
  (∀ m, f (destroy m) = destroy (f m)) → destroy_blind (modifyM f).
Proof. intros Hf m. unfold modifyM. by rewrite Hf. Qed.

Lemma blind_bind {A B} (c : M A) (f : A → M B) :
  destroy_blind c → (∀ a, destroy_blind (f a)) → destroy_blind (bind c f).
Proof.
  intros Hc Hf m. unfold bind. rewrite Hc. cbn [fst snd].
  unfold result, final, trace. rewrite Hf. reflexivity.
Qed.

Lemma blind_forEach {A} (xs : list A) (body : A → M unit) :
  (∀ x, destroy_blind (body x)) → destroy_blind (forEach xs body).
Proof.
  intros Hbody. induction xs as [| x xs IH]; cbn [forEach].
  - apply blind_ret.
  - apply blind_bind; [apply Hbody | intros _; exact IH].
Qed.

Lemma blind_onChange_callback (l : Listener) :
  destroy_blind (onChange_callback l).
Proof.
  unfold onChange_callback.
  apply blind_bind; [by apply blind_gets | intros curr].
  apply blind_bind; [apply blind_emit | intros _].
  apply blind_bind; [by apply blind_gets | intros persist].
  apply blind_bind; [| intros _; apply blind_ret].
  destruct persist; [apply blind_emit | apply blind_ret].
Qed.

Lemma blind_run_listeners (ls : list Listener) :
  destroy_blind (run_listeners ls).
Proof.
  induction ls as [| l ls IH]; cbn [run_listeners].
  - apply blind_ret.
  - apply blind_bind; [apply blind_onChange_callback | intros l1].
    apply blind_bind; [exact IH | intros ls1; apply blind_ret].
Qed.

Lemma blind_Observer_update (i : nat) : destroy_blind (Observer_update i).
Proof.
  unfold Observer_update.
  apply blind_bind; [by apply blind_gets | intros [o |]].
  - apply blind_bind; [apply blind_run_listeners | intros ls].
    by apply blind_modifyM.
  - apply blind_ret.
Qed.

Lemma blind_Computed_update (key : AttributeKey) :
  destroy_blind (Computed_update key).
Proof.
  unfold Computed_update.
  apply blind_bind; [by apply blind_gets | intros cfg].
  apply blind_bind; [by apply blind_gets | intros st].
  case_decide; [apply blind_ret |].
  apply blind_bind; [by apply blind_modifyM | intros _].
  apply blind_forEach, blind_Observer_update.
Qed.

Lemma blind_Value_set (key : AttributeKey) (c : Cell) (x : Z) :
  destroy_blind (Value_set key c x).
Proof.
  unfold Value_set.
  apply blind_bind; [by apply blind_gets | intros v].
  case_decide; [apply blind_ret |].
  apply blind_bind; [by apply blind_modifyM | intros _].
  apply blind_Computed_update.
Qed.

Variable validate : RequiredConfig → AttributeKey → Z → bool.

Lemma blind_call_validate (key : AttributeKey) (value : Z) :
  destroy_blind (call_validate validate key value).
Proof.
  unfold call_validate.
  apply blind_bind; [apply blind_emit | intros _]. by apply blind_gets.
Qed.

Lemma blind_setBase (key : AttributeKey) (value : Z) :
  destroy_blind (setBase validate key value).
Proof.
  unfold setBase.
  apply blind_bind; [apply blind_call_validate | intros ok].
  destruct ok; cbn [negb]; [| apply blind_ret].
  apply blind_bind; [by apply blind_gets | intros cfg].
  apply blind_bind; [apply blind_Value_set | intros _; apply blind_ret].
Qed.

Lemma blind_setEquipment (key : AttributeKey) (value : Z) :
  destroy_blind (setEquipment validate key value).
Proof.
  unfold setEquipment.
  apply blind_bind; [apply blind_call_validate | intros ok].
  destruct ok; cbn [negb]; [| apply blind_ret].
  apply blind_bind; [apply blind_Value_set | intros _; apply blind_ret].
Qed.

Lemma blind_setEffect (key : AttributeKey) (value : Z) :
  destroy_blind (setEffect validate key value).
Proof.
  unfold setEffect.
  apply blind_bind; [apply blind_call_validate | intros ok].
  destruct ok; cbn [negb]; [| apply blind_ret].
  apply blind_bind; [apply blind_Value_set | intros _; apply blind_ret].
Qed.

End DestroyFacts.

(** * The reactive manager: main results *)

Import Reactive ReactiveSpec.

(** C1.  The specification has it that no write after [destroy()]
    notifies.  The code does otherwise: [destroy] only empties the
    manager's own array, the listeners stay registered with their
    observers.  Every setter run on
    a destroyed manager returns the same result and calls the same hooks
    as on the live one; on a freshly built and then destroyed
    [SimpleAttributeManager], [setBase("vitality", 5)] calls
    [onAttributeChanged("vitality", 0, 5)], and with [autoPersist] also
    [persistState]. *)
Theorem destroy_keeps_notifying :
  (∀ validate m key value,
     setBase validate key value (destroy m)
       = (result (setBase validate key value m),
          destroy (final (setBase validate key value m)),
          trace (setBase validate key value m))
     ∧ setEquipment validate key value (destroy m)
       = (result (setEquipment validate key value m),
          destroy (final (setEquipment validate key value m)),
          trace (setEquipment validate key value m))
     ∧ setEffect validate key value (destroy m)
       = (result (setEffect validate key value m),
          destroy (final (setEffect validate key value m)),
          trace (setEffect validate key value m)))
  ∧ observers (destroy (new config_default)) = []
  ∧ trace (setBase SimpleAttributeManager_validate vitality 5
             (destroy (new config_default)))
    = [ValidateCalled vitality 5; AttributeChanged vitality 0 5]
  ∧ trace (setBase SimpleAttributeManager_validate vitality 5
             (destroy (new config_autoPersist)))
    = [ValidateCalled vitality 5; AttributeChanged vitality 0 5;
       PersistState].
Proof.
  split.
  - intros validate m key value. split; [| split].
    + apply blind_setBase.
    + apply blind_setEquipment.
    + apply blind_setEffect.
  - split; [reflexivity |]. split; vm_compute; reflexivity.
Qed.

(** C3.  When [validate] returns false for a key and a value, each of
    [setBase], [setEquipment] and [setEffect] returns false and ends in
    the very manager it started from, having called no hook but
    [validate]; in particular, with a [validate] that always returns
    false, [setBase("strength", 50)] returns false and
    [getValue("strength")] is what it was. *)
Theorem rejected_setter_changes_nothing
    (validate : RequiredConfig → AttributeKey → Z → bool)
    (m : AttributeManager) (key : AttributeKey) (value : Z) :
  validate (config m) key value = false →
  setBase validate key value m = (false, m, [ValidateCalled key value])
  ∧ setEquipment validate key value m
    = (false, m, [ValidateCalled key value])
  ∧ setEffect validate key value m = (false, m, [ValidateCalled key value])
  ∧ result (setBase validate_never strength 50 m) = false
  ∧ final (setBase validate_never strength 50 m) = m
  ∧ getValue (final (setBase validate_never strength 50 m)) strength
    = getValue m strength.
Proof.
  intros Hv.
  split; [by apply setBase_rejected |].
  split; [by apply setEquipment_rejected |].
  split; [by apply setEffect_rejected |].
  by rewrite (setBase_rejected validate_never strength 50 m).
Qed.

Lemma rejected_setter_changes_nothing_witness :
  SimpleAttributeManager_validate (config (new config_vitality10)) vitality 500
    = false
  ∧ setEquipment SimpleAttributeManager_validate vitality 500
      (new config_vitality10)
    = (false, new config_vitality10, [ValidateCalled vitality 500]).
Proof.
  split; [reflexivity |].
  exact (proj1 (proj2
    (rejected_setter_changes_nothing SimpleAttributeManager_validate
       (new config_vitality10) vitality 500 eq_refl))).
Defined.

(** C4.  On a manager built with [initialValues = {vitality: 10}],
    [minValue = 0], [maxValue = 100] and the range validation,
    [setEquipment("vitality", 5)] succeeds, [getValue("vitality")] becomes
    15 and [onAttributeChanged] is called exactly once, with
    [("vitality", 10, 15)].  For every manager and every policy, an
    accepted or rejected write whose clamped total equals the total held
    before calls neither [onAttributeChanged] nor [persistState]; and on
    a manager wired as the constructor leaves it, an accepted write that
    moves the total calls [onAttributeChanged] exactly once, with the
    old and the new total. *)
Theorem setEquipment_notifies_once_per_change :
  (let r := setEquipment SimpleAttributeManager_validate vitality 5
              (new config_vitality10) in
   getValue (new config_vitality10) vitality = 10
   ∧ result r = true
   ∧ getValue (final r) vitality = 15
   ∧ notifications (trace r) = [(vitality, 10, 15)]
   ∧ trace r = [ValidateCalled vitality 5; AttributeChanged vitality 10 15])
  ∧ (∀ validate m key value,
       let v := rvalues (states m key) in
       let lo := minValue (config m) in
       let hi := maxValue (config m) in
       (Compact.clamp (Compact.clamp value lo hi + equipmentBonus v
                       + effectBonus v) lo hi = getValue m key →
        notifications (trace (setBase validate key value m)) = []
        ∧ persists (trace (setBase validate key value m)) = 0%nat)
       ∧ (Compact.clamp (baseValue v + value + effectBonus v) lo hi
            = getValue m key →
          notifications (trace (setEquipment validate key value m)) = []
          ∧ persists (trace (setEquipment validate key value m)) = 0%nat)
       ∧ (Compact.clamp (baseValue v + equipmentBonus v + value) lo hi
            = getValue m key →
          notifications (trace (setEffect validate key value m)) = []
          ∧ persists (trace (setEffect validate key value m)) = 0%nat))
  ∧ (∀ validate m key value,
       let v := rvalues (states m key) in
       let total :=
         Compact.clamp (baseValue v + value + effectBonus v)
           (minValue (config m)) (maxValue (config m)) in
       wired m →
       validate (config m) key value = true →
       total ≠ getValue m key →
       getValue (final (setEquipment validate key value m)) key = total
       ∧ notifications (trace (setEquipment validate key value m))
         = [(key, getValue m key, total)]
       ∧ wired (final (setEquipment validate key value m))).
Proof.
  split; [| split].
  - vm_compute. by repeat split.
  - intros validate m key value v lo hi.
    split; [| split]; intros Hsame.
    + destruct (validate (config m) key value) eqn:Hv.
      * destruct (setBase_accepted validate key value m Hv) as (_ & _ & ->).
        rewrite (Value_set_silent key baseCell) by exact Hsame. done.
      * by rewrite setBase_rejected.
    + destruct (validate (config m) key value) eqn:Hv.
      * destruct (setEquipment_accepted validate key value m Hv)
          as (_ & _ & ->).
        rewrite (Value_set_silent key equipmentCell) by exact Hsame. done.
      * by rewrite setEquipment_rejected.
    + destruct (validate (config m) key value) eqn:Hv.
      * destruct (setEffect_accepted validate key value m Hv) as (_ & _ & ->).
        rewrite (Value_set_silent key effectCell) by exact Hsame. done.
      * by rewrite setEffect_rejected.
  - intros validate m key value v total Hw Hv Hdiff.
    destruct (setEquipment_accepted validate key value m Hv)
      as (_ & -> & ->).
    destruct (Value_set_wired key equipmentCell value m Hw)
      as (Hw' & Hget & Htrace).
    split; [exact Hget |]. split; [| exact Hw'].
    rewrite Htrace. unfold change_trace.
    rewrite decide_False by exact Hdiff.
    cbn. by destruct (autoPersist (config m)).
Qed.

Lemma setEquipment_notifies_once_per_change_witness :
  let m := final (setBase SimpleAttributeManager_validate vitality 100
                    (new config_vitality10)) in
  getValue m vitality = 100
  ∧ Compact.clamp (baseValue (rvalues (states m vitality)) + 5
                   + effectBonus (rvalues (states m vitality)))
      (minValue (config m)) (maxValue (config m))
    = getValue m vitality
  ∧ result (setEquipment SimpleAttributeManager_validate vitality 5 m) = true
  ∧ equipmentBonus
      (rvalues
         (states
            (final (setEquipment SimpleAttributeManager_validate vitality 5 m))
            vitality)) = 5
  ∧ notifications
      (trace (setEquipment SimpleAttributeManager_validate vitality 5 m)) = [].
Proof.
  intros m.
  assert (Hsame :
    Compact.clamp (baseValue (rvalues (states m vitality)) + 5
                   + effectBonus (rvalues (states m vitality)))
      (minValue (config m)) (maxValue (config m))
    = getValue m vitality) by (vm_compute; reflexivity).
  split; [vm_compute; reflexivity |]. split; [exact Hsame |].
  split; [vm_compute; reflexivity |]. split; [vm_compute; reflexivity |].
  exact (proj1 (proj1 (proj2
    (proj1 (proj2 setEquipment_notifies_once_per_change)
       SimpleAttributeManager_validate m vitality 5)) Hsame)).
Defined.

(** C5.  [loadData], in whatever order it visits the keys: a key absent
    from the data keeps its three cells; for a key with a record, each of
    the three cells ends exactly as the direct call of its setter on the
    loaded value would leave it, on its own: the base cell takes
    [clamp(value)] if [validate] accepts the base value and is kept
    otherwise, and likewise (unclamped) the equipment and the effect
    cell, each by the verdict on its own value.  A rejection of one
    sub-field therefore neither blocks the other two nor any other key. *)
Theorem loadData_applies_each_field_independently
    (validate : RequiredConfig → AttributeKey → Z → bool)
    (order : list AttributeKey)
    (data : gmap AttributeKey PartialAttributeValues)
    (m : AttributeManager) (key : AttributeKey) :
  order ≡ₚ ATTRIBUTE_KEYS →
  let m' := final (loadData_in validate order data m) in
  let old := rvalues (states m key) in
  let cfg := config m in
  match data !! key with
  | None => rvalues (states m' key) = old
  | Some values =>
      let b := default 0 (baseValue_opt values) in
      let q := default 0 (equipmentBonus_opt values) in
      let f := default 0 (effectBonus_opt values) in
      baseValue (rvalues (states m' key))
        = (if validate cfg key b
           then Compact.clamp b (minValue cfg) (maxValue cfg)
           else baseValue old)
      ∧ equipmentBonus (rvalues (states m' key))
        = (if validate cfg key q then q else equipmentBonus old)
      ∧ effectBonus (rvalues (states m' key))
        = (if validate cfg key f then f else effectBonus old)
      ∧ baseValue (rvalues (states m' key))
        = baseValue (rvalues (states (final (setBase validate key b m)) key))
      ∧ equipmentBonus (rvalues (states m' key))
        = equipmentBonus
            (rvalues (states (final (setEquipment validate key q m)) key))
      ∧ effectBonus (rvalues (states m' key))
        = effectBonus
            (rvalues (states (final (setEffect validate key f m)) key))
  end.
Proof.
  intros Hp m' old cfg. subst m'.
  rewrite (loadData_in_loaded validate order data m key Hp).
  destruct (data !! key) as [values |]; [| done].
  intros b q f.
  rewrite setBase_values, setEquipment_values, setEffect_values.
  destruct (decide (key = key)); [| done]. unfold loaded.
  cbn [baseValue equipmentBonus effectBonus]. fold b q f cfg old.
  destruct (validate cfg key b), (validate cfg key q), (validate cfg key f);
    by repeat split.
Qed.

Lemma loadData_applies_each_field_independently_witness :
  let data : gmap AttributeKey PartialAttributeValues :=
    {[ vitality := {| baseValue_opt := Some 500;
                      equipmentBonus_opt := Some 5;
                      effectBonus_opt := Some 7 |};
       strength := {| baseValue_opt := Some 20;
                      equipmentBonus_opt := Some 300;
                      effectBonus_opt := Some 1 |} ]} in
  let m := new config_vitality10 in
  let m' := final (loadData SimpleAttributeManager_validate data m) in
  ATTRIBUTE_KEYS ≡ₚ ATTRIBUTE_KEYS
  ∧ rvalues (states m' vitality)
    = {| baseValue := 10; equipmentBonus := 5; effectBonus := 7 |}
  ∧ rvalues (states m' strength)
    = {| baseValue := 20; equipmentBonus := 0; effectBonus := 1 |}
  ∧ rvalues (states m' luck) = rvalues (states m luck).
Proof.
  intros data m m'. split; [reflexivity |].
  pose proof (loadData_applies_each_field_independently
                SimpleAttributeManager_validate ATTRIBUTE_KEYS data m
                vitality (reflexivity _)) as Hvit.
  pose proof (loadData_applies_each_field_independently
                SimpleAttributeManager_validate ATTRIBUTE_KEYS data m
                luck (reflexivity _)) as Hluck.
  split; [| split].
  - destruct Hvit as (Hb & Hq & Hf & _).
    fold (loadData SimpleAttributeManager_validate data) in Hb, Hq, Hf.
    fold m' in Hb, Hq, Hf.
    destruct (rvalues (states m' vitality)) as [b q f].
    cbn [baseValue equipmentBonus effectBonus] in Hb, Hq, Hf.
    rewrite Hb, Hq, Hf. vm_compute. reflexivity.
  - vm_compute. reflexivity.
  - exact Hluck.
Defined.

(** C2 (amended).  [loadData(exportData())], in whatever order it visits
    the keys and under the manager's own validation policy, leaves the
    equipment and effect bonus of every key unchanged, and leaves a base
    value unchanged when [validate] rejects it or when it lies within
    [minValue, maxValue]; a base value that [validate] accepts is
    replaced by its clamp.  All fifteen fields are therefore unchanged
    whenever the policy accepts only values within the range, as that of
    [SimpleAttributeManager] does. *)
Theorem loadData_exportData_roundtrip
    (validate : RequiredConfig → AttributeKey → Z → bool)
    (order : list AttributeKey) (m : AttributeManager)
    (key : AttributeKey) :
  order ≡ₚ ATTRIBUTE_KEYS →
  let m' :=
    final (loadData_in validate order (asPartial <$> exportData m) m) in
  let old := rvalues (states m key) in
  let cfg := config m in
  equipmentBonus (rvalues (states m' key)) = equipmentBonus old
  ∧ effectBonus (rvalues (states m' key)) = effectBonus old
  ∧ baseValue (rvalues (states m' key))
    = (if validate cfg key (baseValue old)
       then Compact.clamp (baseValue old) (minValue cfg) (maxValue cfg)
       else baseValue old)
  ∧ (validate cfg key (baseValue old) = false
     ∨ minValue cfg <= baseValue old <= maxValue cfg →
     rvalues (states m' key) = old)
  ∧ ((∀ k x, validate cfg k x = true → minValue cfg <= x <= maxValue cfg) →
     rvalues (states m' key) = old)
  ∧ rvalues
      (states
         (final (loadData_in SimpleAttributeManager_validate order
                   (asPartial <$> exportData m) m)) key) = old.
Proof.
  intros Hp m' old cfg. subst m'.
  rewrite !(loadData_in_loaded _ order _ m key Hp).
  rewrite lookup_fmap, exportData_lookup. cbn [fmap option_fmap option_map].
  unfold loaded. cbn [asPartial baseValue_opt equipmentBonus_opt
    effectBonus_opt default baseValue equipmentBonus effectBonus].
  unfold id. fold old cfg.
  assert (Hkeep : ∀ (ok : bool),
            (ok = true → minValue cfg <= baseValue old <= maxValue cfg) →
            {| baseValue :=
                 if ok
                 then Compact.clamp (baseValue old) (minValue cfg)
                        (maxValue cfg)
                 else baseValue old;
               equipmentBonus :=
                 if validate cfg key (equipmentBonus old)
                 then equipmentBonus old else equipmentBonus old;
               effectBonus :=
                 if validate cfg key (effectBonus old)
                 then effectBonus old else effectBonus old |} = old).
  { intros ok Hok. destruct old as [b q f].
    cbn [baseValue equipmentBonus effectBonus] in *.
    destruct (validate cfg key q), (validate cfg key f);
      (destruct ok; [rewrite clamp_fixed by auto |]); reflexivity. }
  split; [by destruct (validate cfg key (equipmentBonus old)) |].
  split; [by destruct (validate cfg key (effectBonus old)) |].
  split; [done |].
  split; [| split].
  - intros [Hrej | Hin]; apply Hkeep; [congruence | done].
  - intros Honly. apply Hkeep. apply Honly.
  - assert (Hsimple :
      {| baseValue :=
           if SimpleAttributeManager_validate cfg key (baseValue old)
           then Compact.clamp (baseValue old) (minValue cfg) (maxValue cfg)
           else baseValue old;
         equipmentBonus :=
           if SimpleAttributeManager_validate cfg key (equipmentBonus old)
           then equipmentBonus old else equipmentBonus old;
         effectBonus :=
           if SimpleAttributeManager_validate cfg key (effectBonus old)
           then effectBonus old else effectBonus old |} = old).
    { destruct old as [b q f].
      cbn [baseValue equipmentBonus effectBonus].
      destruct (SimpleAttributeManager_validate cfg key q),
               (SimpleAttributeManager_validate cfg key f);
        (destruct (SimpleAttributeManager_validate cfg key b) eqn:Hb;
         [ rewrite clamp_fixed;
           [ reflexivity
           | unfold SimpleAttributeManager_validate in Hb; lia ]
         | reflexivity ]). }
    exact Hsimple.
Qed.

Lemma loadData_exportData_roundtrip_witness :
  let m := new config_vitality80 in
  let m' :=
    final (loadData_in MyAttributes_validate ATTRIBUTE_KEYS
             (asPartial <$> exportData m) m) in
  ATTRIBUTE_KEYS ≡ₚ ATTRIBUTE_KEYS
  ∧ equipmentBonus (rvalues (states m' vitality)) = 0
  ∧ effectBonus (rvalues (states m' vitality)) = 0
  ∧ baseValue (rvalues (states m' vitality)) = 50.
Proof.
  intros m m'. split; [reflexivity |].
  destruct (loadData_exportData_roundtrip MyAttributes_validate
              ATTRIBUTE_KEYS m vitality (reflexivity _))
    as (Hq & Hf & Hb & _).
  fold m' in Hq, Hf, Hb. rewrite Hq, Hf, Hb.
  vm_compute. by repeat split.
Defined.

(** C2 as stated fails: a manager built with [initialValues =
    {vitality: 80}] and [maxValue = 50] holds the base value 80; under
    the policy [0 <= value <= 100], [loadData(exportData())] accepts 80
    and stores [clamp(80, 0, 50) = 50]. *)
Lemma loadData_exportData_changes_base :
  baseValue (rvalues (states (new config_vitality80) vitality)) = 80
  ∧ baseValue
      (rvalues
         (states
            (final (loadData MyAttributes_validate
                      (asPartial <$> exportData (new config_vitality80))
                      (new config_vitality80))) vitality)) = 50
  ∧ ¬ (∀ validate m key,
         rvalues
           (states
              (final (loadData validate (asPartial <$> exportData m) m)) key)
         = rvalues (states m key)).
Proof.
  split; [vm_compute; reflexivity |]. split; [vm_compute; reflexivity |].
  intros Hall.
  specialize (Hall MyAttributes_validate (new config_vitality80) vitality).
  vm_compute in Hall. discriminate Hall.
Qed.

(** C9 (amended).  When validation passes, [setBase] stores
    [clamp(value, minValue, maxValue)] in the base cell, while
    [setEquipment] and [setEffect] store the value as given.  If
    [minValue <= maxValue], the base value stored by an accepted
    [setBase] lies within [minValue, maxValue]; the equipment and effect
    cells can leave the range: with [maxValue = 50] and the policy
    [0 <= value <= 100], [setEquipment("vitality", 80)] and
    [setEffect("vitality", 80)] are accepted and leave 80 in their
    cells. *)
Theorem setBase_clamps_bonus_setters_do_not
    (validate : RequiredConfig → AttributeKey → Z → bool)
    (m : AttributeManager) (key : AttributeKey) (value : Z) :
  validate (config m) key value = true →
  let lo := minValue (config m) in
  let hi := maxValue (config m) in
  rvalues (states (final (setBase validate key value m)) key)
    = {| baseValue := Compact.clamp value lo hi;
         equipmentBonus := equipmentBonus (rvalues (states m key));
         effectBonus := effectBonus (rvalues (states m key)) |}
  ∧ rvalues (states (final (setEquipment validate key value m)) key)
    = {| baseValue := baseValue (rvalues (states m key));
         equipmentBonus := value;
         effectBonus := effectBonus (rvalues (states m key)) |}
  ∧ rvalues (states (final (setEffect validate key value m)) key)
    = {| baseValue := baseValue (rvalues (states m key));
         equipmentBonus := equipmentBonus (rvalues (states m key));
         effectBonus := value |}
  ∧ (lo <= hi →
     lo <= baseValue
             (rvalues (states (final (setBase validate key value m)) key))
        <= hi)
  ∧ (let m0 := new config_vitality80 in
     MyAttributes_validate (config m0) vitality 80 = true
     ∧ minValue (config m0) = 0
     ∧ maxValue (config m0) = 50
     ∧ equipmentBonus
         (rvalues
            (states (final (setEquipment MyAttributes_validate vitality 80 m0))
               vitality)) = 80
     ∧ effectBonus
         (rvalues
            (states (final (setEffect MyAttributes_validate vitality 80 m0))
               vitality)) = 80).
Proof.
  intros Hv lo hi.
  rewrite setBase_values, setEquipment_values, setEffect_values.
  rewrite Hv. destruct (decide (key = key)); [| done].
  cbn [cell_put baseValue]. fold lo hi.
  split; [done |]. split; [done |]. split; [done |].
  split; [apply clamp_range |].
  vm_compute. by repeat split.
Qed.

Lemma setBase_clamps_bonus_setters_do_not_witness :
  let m := new config_vitality80 in
  MyAttributes_validate (config m) strength 70 = true
  ∧ baseValue
      (rvalues
         (states (final (setBase MyAttributes_validate strength 70 m))
            strength)) = 50
  ∧ equipmentBonus
      (rvalues
         (states (final (setEquipment MyAttributes_validate strength 70 m))
            strength)) = 70.
Proof.
  intros m. split; [reflexivity |].
  destruct (setBase_clamps_bonus_setters_do_not MyAttributes_validate m
              strength 70 eq_refl) as (Hb & Hq & _).
  rewrite Hb, Hq. vm_compute. by split.
Defined.

(** C9 as stated fails where it says that an accepted base value can
    never be outside [minValue, maxValue]: with [minValue = 10] and
    [maxValue = 5], the policy [0 <= value <= 100] accepts
    [setBase("vitality", 7)], which stores [clamp(7, 10, 5) = 10], above
    [maxValue]. *)
Lemma accepted_base_outside_inverted_range :
  MyAttributes_validate (config (new config_inverted)) vitality 7 = true
  ∧ minValue (config (new config_inverted)) = 10
  ∧ maxValue (config (new config_inverted)) = 5
  ∧ baseValue
      (rvalues
         (states
            (final (setBase MyAttributes_validate vitality 7
                      (new config_inverted))) vitality)) = 10
  ∧ ¬ (∀ validate m key value,
         validate (config m) key value = true →
         minValue (config m)
         <= baseValue
              (rvalues (states (final (setBase validate key value m)) key))
         <= maxValue (config m)).
Proof.
  split; [reflexivity |]. split; [reflexivity |]. split; [reflexivity |].
  split; [vm_compute; reflexivity |].
  intros Hall.
  specialize (Hall MyAttributes_validate (new config_inverted) vitality 7
                eq_refl).
  vm_compute in Hall. destruct Hall as [_ Hle]. by apply Hle.
Qed.

(** C10.  The constructor, which takes no validation hook and calls
    none, puts each configured initial value (0 when there is none) in
    the base cell as it is, without clamping: only the derived total is
    clamped.  With [initialValues = {vitality: 150}] and [maxValue = 100]
    the new manager holds the base value 150, which the setter of the
    same manager rejects under the range policy
    ([setBase("vitality", 150)] returns false) and clamps to 100 under a
    policy that accepts it. *)
Theorem constructor_stores_initial_values_unchecked :
  (∀ cfg key,
     rvalues (states (new cfg) key)
     = {| baseValue := default 0 (initialValues (resolveConfig cfg) !! key);
          equipmentBonus := 0;
          effectBonus := 0 |}
     ∧ config (new cfg) = resolveConfig cfg)
  ∧ (let m := new config_vitality150 in
     minValue (config m) = 0
     ∧ maxValue (config m) = 100
     ∧ baseValue (rvalues (states m vitality)) = 150
     ∧ getValue m vitality = 100
     ∧ SimpleAttributeManager_validate (config m) vitality 150 = false
     ∧ result (setBase SimpleAttributeManager_validate vitality 150 m) = false
     ∧ result (setBase validate_always vitality 150 m) = true
     ∧ baseValue
         (rvalues
            (states (final (setBase validate_always vitality 150 m)) vitality))
       = 100).
Proof.
  split.
  - intros cfg key. unfold new, setupObservers, ATTRIBUTE_KEYS.
    cbn [foldl]. by destruct key.
  - vm_compute. by repeat split.
Qed.

(** * Further properties of the shared utilities *)

Section KeyFacts.

Lemma key_name_valid (key : AttributeKey) :
  Shared.isValidAttributeKey (key_name key) = true.
Proof. by destruct key. Qed.

Lemma isValidAttributeKey_names (s : string) :
  Shared.isValidAttributeKey s = true → ∃ key, s = key_name key.
Proof.
  unfold Shared.isValidAttributeKey.
  rewrite !orb_true_iff, !String.eqb_eq.
  intros [[[[-> | ->] | ->] | ->] | ->];
    [ by exists vitality | by exists strength | by exists agility
    | by exists intellect | by exists luck ].
Qed.

Lemma isValidKey_names (s : string) :
  Compact.isValidKey s = true ↔ ∃ key, s = key_name key.
Proof.
  unfold Compact.isValidKey. rewrite bool_decide_eq_true.
  rewrite list_elem_of_fmap. split.
  - intros (key & -> & _). by exists key.
  - intros (key & ->). exists key. split; [done |].
    destruct key; apply (bool_decide_unpack _); by vm_compute.
Qed.

End KeyFacts.

(** X1.  [isValidAttributeKey] and [isValidKey] accept exactly the
    names of the five attribute keys, and they agree on every string. *)
Theorem valid_keys_are_the_five_names (s : string) :
  (Shared.isValidAttributeKey s = true ↔ ∃ key, s = key_name key)
  ∧ (Compact.isValidKey s = true ↔ ∃ key, s = key_name key)
  ∧ Shared.isValidAttributeKey s = Compact.isValidKey s.
Proof.
  assert (Hshared :
    Shared.isValidAttributeKey s = true ↔ ∃ key, s = key_name key).
  { split; [apply isValidAttributeKey_names |].
    intros (key & ->). apply key_name_valid. }
  split; [exact Hshared |]. split; [apply isValidKey_names |].
  apply Bool.eq_iff_eq_true. rewrite Hshared. symmetry.
  apply isValidKey_names.
Qed.

(** X2.  Both clamp utilities are monotone in the value, whatever the
    bounds. *)
Theorem clamp_monotone (x y lo hi : Z) :
  x <= y →
  Shared.clampAttributeValue x lo hi <= Shared.clampAttributeValue y lo hi
  ∧ Compact.clamp x lo hi <= Compact.clamp y lo hi.
Proof. unfold Shared.clampAttributeValue, Compact.clamp. lia. Qed.

Lemma clamp_monotone_witness :
  (-5) <= 1050
  ∧ Shared.clampAttributeValue (-5) 0 999
    <= Shared.clampAttributeValue 1050 0 999.
Proof.
  split; [lia |]. exact (proj1 (clamp_monotone (-5) 1050 0 999 ltac:(lia))).
Defined.

(** X3.  With [lo <= hi], a clamp utility returns its argument exactly
    when the argument lies within [lo, hi]. *)
Theorem clamp_fixes_exactly_the_range (x lo hi : Z) :
  lo <= hi →
  (Shared.clampAttributeValue x lo hi = x ↔ lo <= x <= hi)
  ∧ (Compact.clamp x lo hi = x ↔ lo <= x <= hi).
Proof. unfold Shared.clampAttributeValue, Compact.clamp. lia. Qed.

Lemma clamp_fixes_exactly_the_range_witness :
  0 <= 999 ∧ (Shared.clampAttributeValue 1050 0 999 = 1050 ↔ 0 <= 1050 <= 999).
Proof.
  split; [lia |].
  exact (proj1 (clamp_fixes_exactly_the_range 1050 0 999 ltac:(lia))).
Defined.

(** X4.  With the bounds inverted ([hi < lo]) both clamp utilities
    return [lo] for every value; and whatever the bounds, the result is
    never below [lo]. *)
Theorem clamp_inverted_bounds_returns_min (x lo hi : Z) :
  lo <= Shared.clampAttributeValue x lo hi
  ∧ lo <= Compact.clamp x lo hi
  ∧ (hi < lo →
     Shared.clampAttributeValue x lo hi = lo ∧ Compact.clamp x lo hi = lo).
Proof. unfold Shared.clampAttributeValue, Compact.clamp. lia. Qed.

Lemma clamp_inverted_bounds_returns_min_witness :
  5 < 10 ∧ Shared.clampAttributeValue 7 10 5 = 10 ∧ Compact.clamp 7 10 5 = 10.
Proof.
  split; [lia |].
  exact (proj2 (proj2 (clamp_inverted_bounds_returns_min 7 10 5))
           ltac:(lia)).
Defined.

(** X5.  In the shared utilities the icon of a key is the icon of its
    catalog record; the compact catalog has the same display name for
    every key and the same icon for every key but [luck]. *)
Theorem catalog_icons_coherent (key : AttributeKey) :
  Shared.getAttributeIcon key = icon (Shared.getAttributeMeta key)
  ∧ displayName (Compact.AttributeCatalog key)
    = displayName (Shared.AttributeCatalog key)
  ∧ (icon (Compact.AttributeCatalog key) = icon (Shared.AttributeCatalog key)
     ↔ key ≠ luck).
Proof.
  destruct key; (split; [reflexivity |]); (split; [reflexivity |]);
    split; done.
Qed.

Section UpdateFacts.
Import Shared SharedSpec Usage.

Lemma spread_spread (v : AttributeValues) (p1 p2 : PartialAttributeValues) :
  spread_values (spread_values v (Some p1)) (Some p2)
  = spread_values v (Some (merge_partial p1 p2)).
Proof.
  destruct p1 as [[b1 |] [q1 |] [f1 |]], p2 as [[b2 |] [q2 |] [f2 |]];
    reflexivity.
Qed.

End UpdateFacts.

(** X6.  Two updates of the same key, each assigned back to the state,
    give the entry that one update with the merged partial record gives
    (fields of the second update win); this includes the failure on a
    missing key. *)
Theorem updateAttributeEntry_composes
    (st : gmap AttributeKey Shared.AttributeStateEntry)
    (key : AttributeKey) (p1 p2 : PartialAttributeValues) :
  (Usage.assignUpdatedEntry st key p1
     ≫= λ st1, Shared.updateAttributeEntry st1 key p2)
  = Shared.updateAttributeEntry st key (SharedSpec.merge_partial p1 p2).
Proof.
  unfold Usage.assignUpdatedEntry, Shared.updateAttributeEntry.
  destruct (st !! key) as [e |]; cbn; [| done].
  rewrite lookup_insert_eq.
  change (Some
            {| Shared.meta := Shared.meta e;
               Shared.values :=
                 spread_values (spread_values (Shared.values e) (Some p1))
                   (Some p2);
               Shared.totalValue :=
                 Shared.calculateTotalAttributeValue
                   (spread_values (spread_values (Shared.values e) (Some p1))
                      (Some p2)) |}
          = Some
              {| Shared.meta := Shared.meta e;
                 Shared.values :=
                   spread_values (Shared.values e)
                     (Some (SharedSpec.merge_partial p1 p2));
                 Shared.totalValue :=
                   Shared.calculateTotalAttributeValue
                     (spread_values (Shared.values e)
                        (Some (SharedSpec.merge_partial p1 p2))) |}).
  by rewrite spread_spread.
Qed.

(** X7.  An update with no fields returns an entry with the same
    metadata and values and with the total recomputed: it returns the
    entry it was given exactly when that entry's stored total was the sum
    of its values. *)
Theorem updateAttributeEntry_no_values
    (st : gmap AttributeKey Shared.AttributeStateEntry)
    (key : AttributeKey) (e : Shared.AttributeStateEntry) :
  st !! key = Some e →
  (∃ e', Shared.updateAttributeEntry st key SharedSpec.no_values = Some e'
         ∧ Shared.meta e' = Shared.meta e
         ∧ Shared.values e' = Shared.values e
         ∧ Shared.totalValue e'
           = baseValue (Shared.values e) + equipmentBonus (Shared.values e)
             + effectBonus (Shared.values e))
  ∧ (Shared.updateAttributeEntry st key SharedSpec.no_values = Some e
     ↔ Shared.totalValue e
       = baseValue (Shared.values e) + equipmentBonus (Shared.values e)
         + effectBonus (Shared.values e)).
Proof.
  intros Hk. unfold Shared.updateAttributeEntry. rewrite Hk.
  destruct e as [m [b q f] t]. cbn. split.
  - eexists. by repeat split.
  - split; [intros [= <-]; done | intros ->; done].
Qed.

Lemma updateAttributeEntry_no_values_witness :
  let st : gmap AttributeKey Shared.AttributeStateEntry :=
    {[ luck := {| Shared.meta := Shared.AttributeCatalog luck;
                  Shared.values := mkValues 8 0 3;
                  Shared.totalValue := 99 |} ]} in
  st !! luck
    = Some {| Shared.meta := Shared.AttributeCatalog luck;
              Shared.values := mkValues 8 0 3;
              Shared.totalValue := 99 |}
  ∧ ∃ e', Shared.updateAttributeEntry st luck SharedSpec.no_values = Some e'
          ∧ Shared.totalValue e' = 11.
Proof.
  intros st.
  assert (Hk : st !! luck
               = Some {| Shared.meta := Shared.AttributeCatalog luck;
                         Shared.values := mkValues 8 0 3;
                         Shared.totalValue := 99 |})
    by (vm_compute; reflexivity).
  split; [exact Hk |].
  destruct (proj1 (updateAttributeEntry_no_values st luck _ Hk))
    as (e' & Hu & _ & _ & Ht).
  exists e'. split; [exact Hu |]. rewrite Ht. reflexivity.
Defined.

(** X8.  When the stored total of an entry is the sum of its values, an
    update moves the total by exactly the sum of the changes of the
    fields it provides; a field it does not provide contributes
    nothing. *)
Theorem updateAttributeEntry_total_delta
    (st : gmap AttributeKey Shared.AttributeStateEntry)
    (key : AttributeKey) (p : PartialAttributeValues)
    (e : Shared.AttributeStateEntry) :
  st !! key = Some e →
  Shared.totalValue e
    = baseValue (Shared.values e) + equipmentBonus (Shared.values e)
      + effectBonus (Shared.values e) →
  ∃ e', Shared.updateAttributeEntry st key p = Some e'
        ∧ Shared.totalValue e'
          = Shared.totalValue e
            + from_option (λ x, x - baseValue (Shared.values e)) 0
                (baseValue_opt p)
            + from_option (λ x, x - equipmentBonus (Shared.values e)) 0
                (equipmentBonus_opt p)
            + from_option (λ x, x - effectBonus (Shared.values e)) 0
                (effectBonus_opt p).
Proof.
  intros Hk Ht. unfold Shared.updateAttributeEntry. rewrite Hk.
  eexists. split; [reflexivity |].
  cbn [Shared.totalValue]. rewrite Ht.
  unfold Shared.calculateTotalAttributeValue.
  destruct p as [[b |] [q |] [f |]]; cbn; lia.
Qed.

Lemma updateAttributeEntry_total_delta_witness :
  let st := Shared.createAttributesState None in
  let p := {| baseValue_opt := None; equipmentBonus_opt := Some 8;
              effectBonus_opt := None |} in
  st !! strength = Some (Shared.createAttributeEntry strength None)
  ∧ ∃ e', Shared.updateAttributeEntry st strength p = Some e'
          ∧ Shared.totalValue e' = 20.
Proof.
  intros st p.
  assert (Hk : st !! strength
               = Some (Shared.createAttributeEntry strength None))
    by (vm_compute; reflexivity).
  split; [exact Hk |].
  destruct (updateAttributeEntry_total_delta st strength p _ Hk eq_refl)
    as (e' & Hu & Ht).
  exists e'. split; [exact Hu |]. rewrite Ht. reflexivity.
Defined.

(** X9.  The states that [createAttributesState] builds are consistent
    (exactly the five keys, each entry with the catalog's metadata of its
    key and with its total equal to the sum of its values), and on a
    consistent state an update assigned back to its key always succeeds
    and gives a consistent state again, in which the other keys keep
    their entries. *)
Theorem consistent_states_stay_consistent :
  (∀ overrides, SharedSpec.consistent (Shared.createAttributesState overrides))
  ∧ ∀ st key p,
      SharedSpec.consistent st →
      ∃ st', Usage.assignUpdatedEntry st key p = Some st'
             ∧ SharedSpec.consistent st'
             ∧ ∀ k, k ≠ key → st' !! k = st !! k.
Proof.
  split.
  - intros overrides. split; [apply createAttributesState_dom |].
    intros key e. rewrite createAttributesState_lookup. by intros [= <-].
  - intros st key p [Hdom Hall].
    assert (Hin : is_Some (st !! key)).
    { apply elem_of_dom. rewrite Hdom. destruct key; set_solver. }
    destruct Hin as [e He].
    unfold Usage.assignUpdatedEntry, Shared.updateAttributeEntry.
    rewrite He. cbn. eexists. split; [reflexivity |]. split; [split |].
    + rewrite dom_insert_L, Hdom. destruct key; set_solver.
    + intros k e'. destruct (decide (k = key)) as [-> | Hne].
      * rewrite lookup_insert_eq. intros [= <-]. split; [| done].
        apply (Hall key e He).
      * rewrite lookup_insert_ne by done. apply Hall.
    + intros k Hne. by rewrite lookup_insert_ne.
Qed.

Lemma consistent_states_stay_consistent_witness :
  let st := Shared.createAttributesState None in
  let p := {| baseValue_opt := Some 12; equipmentBonus_opt := None;
              effectBonus_opt := None |} in
  SharedSpec.consistent st
  ∧ ∃ st', Usage.assignUpdatedEntry st vitality p = Some st'
           ∧ SharedSpec.consistent st'.
Proof.
  intros st p.
  pose proof (proj1 consistent_states_stay_consistent None) as Hc.
  split; [exact Hc |].
  destruct (proj2 consistent_states_stay_consistent st vitality p Hc)
    as (st' & Hu & Hc' & _).
  exists st'. by split.
Defined.

(** * Further properties of the reactive manager *)

Section ReachFacts.
Import ReactiveReach.
Local Open Scope manager_scope.

Variable validate : RequiredConfig → AttributeKey → Z → bool.

Lemma cell_get_put (c : Cell) (x : Z) (v : AttributeValues) :
  cell_get c (cell_put c x v) = x.
Proof. by destruct c. Qed.

Lemma modify_setBase (key : AttributeKey) (delta : Z) (m : AttributeManager) :
  result (modify validate key delta m)
    = result (setBase validate key
                (baseValue (rvalues (states m key)) + delta) m)
  ∧ final (modify validate key delta m)
    = final (setBase validate key
               (baseValue (rvalues (states m key)) + delta) m)
  ∧ trace (modify validate key delta m)
    = trace (setBase validate key
               (baseValue (rvalues (states m key)) + delta) m).
Proof. by repeat split. Qed.

Lemma setBase_wired key value m :
  wired m → wired (final (setBase validate key value m)).
Proof.
  intros Hw. destruct (validate (config m) key value) eqn:Hv.
  - destruct (setBase_accepted validate key value m Hv) as (_ & -> & _).
    by apply Value_set_wired.
  - by rewrite setBase_rejected.
Qed.

Lemma setEquipment_wired key value m :
  wired m → wired (final (setEquipment validate key value m)).
Proof.
  intros Hw. destruct (validate (config m) key value) eqn:Hv.
  - destruct (setEquipment_accepted validate key value m Hv) as (_ & -> & _).
    by apply Value_set_wired.
  - by rewrite setEquipment_rejected.
Qed.

Lemma setEffect_wired key value m :
  wired m → wired (final (setEffect validate key value m)).
Proof.
  intros Hw. destruct (validate (config m) key value) eqn:Hv.
  - destruct (setEffect_accepted validate key value m Hv) as (_ & -> & _).
    by apply Value_set_wired.
  - by rewrite setEffect_rejected.
Qed.

Lemma loadEntry_wired data k m :
  wired m → wired (final (loadEntry validate data k m)).
Proof.
  intros Hw. unfold loadEntry. destruct (data !! k) as [values |]; [| done].
  rewrite !final_bind. cbn [ret final fst snd].
  by apply setEffect_wired, setEquipment_wired, setBase_wired.
Qed.

Lemma loadData_in_wired order data m :
  wired m → wired (final (loadData_in validate order data m)).
Proof.
  unfold loadData_in. revert m.
  induction order as [| k ks IH]; intros m Hw; cbn [forEach]; [done |].
  rewrite final_bind. by apply IH, loadEntry_wired.
Qed.

Lemma reachable_wired m : reachable validate m → wired m.
Proof.
  induction 1.
  - apply wired_new.
  - by apply setBase_wired.
  - by apply setEquipment_wired.
  - by apply setEffect_wired.
  - rewrite (proj1 (proj2 (modify_setBase _ _ _))). by apply setBase_wired.
  - by apply loadData_in_wired.
  - by apply wired_destroy.
Qed.

(** The trace of a setter on a wired manager. *)
Lemma setter_trace_wired key c x m :
  wired m →
  trace (Value_set key c x m)
  = change_trace (config m) key (getValue m key)
      (computeTotal (config m) (cell_put c x (rvalues (states m key)))).
Proof. intros Hw. by destruct (Value_set_wired key c x m Hw) as (_ & _ & ->). Qed.

(** On wired managers a write to [key] moves no other total. *)
Lemma Value_set_other_total key c x m k :
  wired m → k ≠ key →
  getValue (final (Value_set key c x m)) k = getValue m k.
Proof.
  intros Hw Hne.
  destruct (Value_set_wired key c x m Hw) as (Hw' & _ & _).
  unfold getValue.
  rewrite (proj1 (Hw' k)), (proj1 (Hw k)).
  rewrite Value_set_config, Value_set_values.
  by rewrite decide_False.
Qed.


End ReachFacts.

(** X10.  On every manager that the constructor and the public methods
    can produce, [getValue(key)] is the clamp of the sum of the key's
    three cells to the configured bounds; with
    [minValue <= maxValue] it lies within them, whatever the cells
    hold. *)
Theorem reachable_total_is_clamped_sum
    (validate : RequiredConfig → AttributeKey → Z → bool)
    (m : AttributeManager) (key : AttributeKey) :
  ReactiveReach.reachable validate m →
  getValue m key
    = Compact.clamp
        (baseValue (rvalues (states m key))
         + equipmentBonus (rvalues (states m key))
         + effectBonus (rvalues (states m key)))
        (minValue (config m)) (maxValue (config m))
  ∧ (minValue (config m) <= maxValue (config m) →
     minValue (config m) <= getValue m key <= maxValue (config m)).
Proof.
  intros Hr. pose proof (reachable_wired validate m Hr key) as (Hc & _).
  unfold getValue. rewrite Hc. split; [reflexivity |].
  intros Hle. by apply clamp_range.
Qed.

Lemma reachable_total_is_clamped_sum_witness :
  let m := final (setEquipment SimpleAttributeManager_validate vitality 95
                    (new config_vitality10)) in
  ReactiveReach.reachable SimpleAttributeManager_validate m
  ∧ equipmentBonus (rvalues (states m vitality)) = 95
  ∧ getValue m vitality = 100.
Proof.
  intros m.
  assert (Hr : ReactiveReach.reachable SimpleAttributeManager_validate m)
    by apply ReactiveReach.reach_setEquipment, ReactiveReach.reach_new.
  split; [exact Hr |]. split; [vm_compute; reflexivity |].
  rewrite (proj1 (reachable_total_is_clamped_sum _ m vitality Hr)).
  vm_compute. reflexivity.
Defined.

(** X11.  No public method changes the configuration of the manager:
    the bounds and the [autoPersist] flag after [setBase],
    [setEquipment], [setEffect], [modify], [loadData] (in any order) and
    [destroy] are those before. *)
Theorem configuration_is_never_changed
    (validate : RequiredConfig → AttributeKey → Z → bool)
    (m : AttributeManager) (key : AttributeKey) (value : Z)
    (order : list AttributeKey)
    (data : gmap AttributeKey PartialAttributeValues) :
  config (final (setBase validate key value m)) = config m
  ∧ config (final (setEquipment validate key value m)) = config m
  ∧ config (final (setEffect validate key value m)) = config m
  ∧ config (final (modify validate key value m)) = config m
  ∧ config (final (loadData_in validate order data m)) = config m
  ∧ config (destroy m) = config m.
Proof.
  split; [apply setBase_config |]. split; [apply setEquipment_config |].
  split; [apply setEffect_config |].
  split; [rewrite (proj1 (proj2 (modify_setBase _ _ _ _)));
          apply setBase_config |].
  split; [apply loadData_in_config | reflexivity].
Qed.

(** X12.  A setter returns the verdict of [validate] and nothing else:
    it returns true also when the write changes no cell.  Calling a
    setter a second time with the same arguments leaves the manager as
    the first call left it and calls no hook but [validate]. *)
Theorem repeated_setter_is_silent
    (validate : RequiredConfig → AttributeKey → Z → bool)
    (m : AttributeManager) (key : AttributeKey) (value : Z) :
  let ok := validate (config m) key value in
  result (setBase validate key value m) = ok
  ∧ result (setEquipment validate key value m) = ok
  ∧ result (setEffect validate key value m) = ok
  ∧ setBase validate key value (final (setBase validate key value m))
    = (ok, final (setBase validate key value m), [ValidateCalled key value])
  ∧ setEquipment validate key value
      (final (setEquipment validate key value m))
    = (ok, final (setEquipment validate key value m),
       [ValidateCalled key value])
  ∧ setEffect validate key value (final (setEffect validate key value m))
    = (ok, final (setEffect validate key value m),
       [ValidateCalled key value]).
Proof.
  intros ok. subst ok.
  destruct (validate (config m) key value) eqn:Hv.
  - destruct (setBase_accepted validate key value m Hv) as (Hr1 & Hf1 & _).
    destruct (setEquipment_accepted validate key value m Hv)
      as (Hr2 & Hf2 & _).
    destruct (setEffect_accepted validate key value m Hv) as (Hr3 & Hf3 & _).
    split; [done |]. split; [done |]. split; [done |].
    split; [| split].
    + set (m1 := final (setBase validate key value m)).
      assert (Hc : config m1 = config m) by apply setBase_config.
      assert (Hcell : baseValue (rvalues (states m1 key))
                      = Compact.clamp value (minValue (config m))
                          (maxValue (config m))).
      { subst m1. rewrite setBase_values, Hv.
        by destruct (decide (key = key)). }
      unfold setBase, call_validate, bind, emit, gets, ret.
      cbn [fst snd]. rewrite Hc, Hv. cbn [negb fst snd].
      unfold Value_set, bind, gets. cbn [fst snd cell_get].
      rewrite ?Hc, Hcell. by rewrite decide_True.
    + set (m1 := final (setEquipment validate key value m)).
      assert (Hc : config m1 = config m) by apply setEquipment_config.
      assert (Hcell : equipmentBonus (rvalues (states m1 key)) = value).
      { subst m1. rewrite setEquipment_values, Hv.
        by destruct (decide (key = key)). }
      unfold setEquipment, call_validate, bind, emit, gets, ret.
      cbn [fst snd]. rewrite Hc, Hv. cbn [negb fst snd].
      unfold Value_set, bind, gets. cbn [fst snd cell_get].
      by rewrite decide_True.
    + set (m1 := final (setEffect validate key value m)).
      assert (Hc : config m1 = config m) by apply setEffect_config.
      assert (Hcell : effectBonus (rvalues (states m1 key)) = value).
      { subst m1. rewrite setEffect_values, Hv.
        by destruct (decide (key = key)). }
      unfold setEffect, call_validate, bind, emit, gets, ret.
      cbn [fst snd]. rewrite Hc, Hv. cbn [negb fst snd].
      unfold Value_set, bind, gets. cbn [fst snd cell_get].
      by rewrite decide_True.
  - rewrite !setBase_rejected, !setEquipment_rejected, !setEffect_rejected
      by done.
    cbn [result final fst snd].
    rewrite ?setBase_rejected, ?setEquipment_rejected, ?setEffect_rejected
      by done.
    by repeat split.
Qed.

(** X13.  On a manager that the public API can produce, an accepted
    setter calls, after [validate], exactly these hooks: nothing when the
    clamped total of the key stays what it was, and otherwise
    [onAttributeChanged(key, old total, new total)] once, followed by
    [persistState()] once when [autoPersist] is set. *)
Theorem accepted_setter_hook_calls
    (validate : RequiredConfig → AttributeKey → Z → bool)
    (m : AttributeManager) (key : AttributeKey) (value : Z) :
  ReactiveReach.reachable validate m →
  validate (config m) key value = true →
  let v := rvalues (states m key) in
  let lo := minValue (config m) in
  let hi := maxValue (config m) in
  let hooks (total : Z) : list Event :=
    if decide (total = getValue m key) then []
    else AttributeChanged key (getValue m key) total
         :: (if autoPersist (config m) then [PersistState] else []) in
  trace (setBase validate key value m)
    = ValidateCalled key value
      :: hooks (Compact.clamp (Compact.clamp value lo hi + equipmentBonus v
                               + effectBonus v) lo hi)
  ∧ trace (setEquipment validate key value m)
    = ValidateCalled key value
      :: hooks (Compact.clamp (baseValue v + value + effectBonus v) lo hi)
  ∧ trace (setEffect validate key value m)
    = ValidateCalled key value
      :: hooks (Compact.clamp (baseValue v + equipmentBonus v + value) lo hi).
Proof.
  intros Hr Hv v lo hi hooks.
  pose proof (reachable_wired validate m Hr) as Hw.
  destruct (setBase_accepted validate key value m Hv) as (_ & _ & ->).
  destruct (setEquipment_accepted validate key value m Hv) as (_ & _ & ->).
  destruct (setEffect_accepted validate key value m Hv) as (_ & _ & ->).
  rewrite !setter_trace_wired by exact Hw. by repeat split.
Qed.

Lemma accepted_setter_hook_calls_witness :
  let m := new config_autoPersist in
  ReactiveReach.reachable SimpleAttributeManager_validate m
  ∧ SimpleAttributeManager_validate (config m) agility 12 = true
  ∧ trace (setEffect SimpleAttributeManager_validate agility 12 m)
    = [ValidateCalled agility 12; AttributeChanged agility 0 12; PersistState].
Proof.
  intros m.
  assert (Hr : ReactiveReach.reachable SimpleAttributeManager_validate m)
    by apply ReactiveReach.reach_new.
  split; [exact Hr |]. split; [reflexivity |].
  rewrite (proj2 (proj2
    (accepted_setter_hook_calls SimpleAttributeManager_validate m agility 12
       Hr eq_refl))).
  vm_compute. reflexivity.
Defined.

(** X14.  On a manager that the public API can produce, a setter (or
    [modify]) on one key leaves the three cells and the total of every
    other key as they were. *)
Theorem setter_leaves_other_keys
    (validate : RequiredConfig → AttributeKey → Z → bool)
    (m : AttributeManager) (key k : AttributeKey) (value : Z) :
  ReactiveReach.reachable validate m →
  k ≠ key →
  (rvalues (states (final (setBase validate key value m)) k)
     = rvalues (states m k)
   ∧ getValue (final (setBase validate key value m)) k = getValue m k)
  ∧ (rvalues (states (final (setEquipment validate key value m)) k)
       = rvalues (states m k)
     ∧ getValue (final (setEquipment validate key value m)) k = getValue m k)
  ∧ (rvalues (states (final (setEffect validate key value m)) k)
       = rvalues (states m k)
     ∧ getValue (final (setEffect validate key value m)) k = getValue m k)
  ∧ (rvalues (states (final (modify validate key value m)) k)
       = rvalues (states m k)
     ∧ getValue (final (modify validate key value m)) k = getValue m k).
Proof.
  intros Hr Hne. pose proof (reachable_wired validate m Hr) as Hw.
  assert (Hbase : ∀ x,
    rvalues (states (final (setBase validate key x m)) k)
      = rvalues (states m k)
    ∧ getValue (final (setBase validate key x m)) k = getValue m k).
  { intros x. split.
    - rewrite setBase_values. by rewrite decide_False.
    - destruct (validate (config m) key x) eqn:Hv.
      + destruct (setBase_accepted validate key x m Hv) as (_ & -> & _).
        by apply Value_set_other_total.
      + by rewrite setBase_rejected. }
  split; [apply Hbase |]. split; [| split].
  - split.
    + rewrite setEquipment_values. by rewrite decide_False.
    + destruct (validate (config m) key value) eqn:Hv.
      * destruct (setEquipment_accepted validate key value m Hv)
          as (_ & -> & _).
        by apply Value_set_other_total.
      * by rewrite setEquipment_rejected.
  - split.
    + rewrite setEffect_values. by rewrite decide_False.
    + destruct (validate (config m) key value) eqn:Hv.
      * destruct (setEffect_accepted validate key value m Hv) as (_ & -> & _).
        by apply Value_set_other_total.
      * by rewrite setEffect_rejected.
  - rewrite (proj1 (proj2 (modify_setBase validate key value m))).
    apply Hbase.
Qed.

Lemma setter_leaves_other_keys_witness :
  let m := new config_vitality10 in
  ReactiveReach.reachable SimpleAttributeManager_validate m
  ∧ vitality ≠ strength
  ∧ getValue (final (setBase SimpleAttributeManager_validate strength 40 m))
      vitality = 10.
Proof.
  intros m.
  assert (Hr : ReactiveReach.reachable SimpleAttributeManager_validate m)
    by apply ReactiveReach.reach_new.
  split; [exact Hr |]. split; [done |].
  rewrite (proj2 (proj1
    (setter_leaves_other_keys SimpleAttributeManager_validate m strength
       vitality 40 Hr ltac:(done)))).
  reflexivity.
Defined.

(** X15.  [modify(key, delta)] validates the resulting base value, not
    the delta.  Under the range policy of [SimpleAttributeManager]: when
    base + delta lies within [minValue, maxValue] the call returns true
    and the base cell becomes base + delta, the two bonus cells staying
    as they are; otherwise it returns false and the manager is unchanged. *)
Theorem modify_under_range_policy
    (m : AttributeManager) (key : AttributeKey) (delta : Z) :
  let b := baseValue (rvalues (states m key)) in
  let lo := minValue (config m) in
  let hi := maxValue (config m) in
  (lo <= b + delta <= hi →
   result (modify SimpleAttributeManager_validate key delta m) = true
   ∧ rvalues
       (states (final (modify SimpleAttributeManager_validate key delta m))
          key)
     = {| baseValue := b + delta;
          equipmentBonus := equipmentBonus (rvalues (states m key));
          effectBonus := effectBonus (rvalues (states m key)) |})
  ∧ (¬ lo <= b + delta <= hi →
     result (modify SimpleAttributeManager_validate key delta m) = false
     ∧ final (modify SimpleAttributeManager_validate key delta m) = m
     ∧ trace (modify SimpleAttributeManager_validate key delta m)
       = [ValidateCalled key (b + delta)]).
Proof.
  intros b lo hi.
  destruct (modify_setBase SimpleAttributeManager_validate key delta m)
    as (-> & -> & ->).
  fold b. split.
  - intros Hin.
    assert (Hv : SimpleAttributeManager_validate (config m) key (b + delta)
                 = true).
    { unfold SimpleAttributeManager_validate. fold lo hi. lia. }
    split; [apply (setBase_accepted _ _ _ _ Hv) |].
    rewrite setBase_values, Hv. destruct (decide (key = key)); [| done].
    cbn [cell_put]. fold lo hi. by rewrite clamp_fixed.
  - intros Hout.
    assert (Hv : SimpleAttributeManager_validate (config m) key (b + delta)
                 = false).
    { unfold SimpleAttributeManager_validate. fold lo hi. lia. }
    by rewrite setBase_rejected.
Qed.

Lemma modify_under_range_policy_witness :
  let m := new config_vitality10 in
  0 <= 10 + 5 <= 100
  ∧ baseValue
      (rvalues
         (states (final (modify SimpleAttributeManager_validate vitality 5 m))
            vitality)) = 15
  ∧ ¬ 0 <= 10 + 95 <= 100
  ∧ final (modify SimpleAttributeManager_validate vitality 95 m) = m.
Proof.
  intros m.
  assert (Hin : 0 <= 10 + 5 <= 100) by lia.
  split; [exact Hin |].
  destruct (proj1 (modify_under_range_policy m vitality 5) Hin) as (_ & Hb).
  split; [by rewrite Hb |].
  assert (Hout : ¬ 0 <= 10 + 95 <= 100) by lia.
  split; [exact Hout |].
  exact (proj1 (proj2
    (proj2 (modify_under_range_policy m vitality 95) Hout))).
Defined.

(** X16.  A [SimpleAttributeManager] configured with
    [minValue > maxValue] accepts no write at all: every setter and
    [modify] returns false and leaves the manager as it is. *)
Theorem inverted_range_rejects_every_write
    (m : AttributeManager) (key : AttributeKey) (value : Z) :
  maxValue (config m) < minValue (config m) →
  setBase SimpleAttributeManager_validate key value m
    = (false, m, [ValidateCalled key value])
  ∧ setEquipment SimpleAttributeManager_validate key value m
    = (false, m, [ValidateCalled key value])
  ∧ setEffect SimpleAttributeManager_validate key value m
    = (false, m, [ValidateCalled key value])
  ∧ result (modify SimpleAttributeManager_validate key value m) = false
  ∧ final (modify SimpleAttributeManager_validate key value m) = m.
Proof.
  intros Hinv.
  assert (Hv : ∀ x, SimpleAttributeManager_validate (config m) key x = false).
  { intros x. unfold SimpleAttributeManager_validate. lia. }
  split; [by apply setBase_rejected |].
  split; [by apply setEquipment_rejected |].
  split; [by apply setEffect_rejected |].
  destruct (modify_setBase SimpleAttributeManager_validate key value m)
    as (-> & -> & _).
  by rewrite setBase_rejected.
Qed.

Lemma inverted_range_rejects_every_write_witness :
  maxValue (config (new config_inverted))
    < minValue (config (new config_inverted))
  ∧ setBase SimpleAttributeManager_validate vitality 7 (new config_inverted)
    = (false, new config_inverted, [ValidateCalled vitality 7]).
Proof.
  assert (Hinv : maxValue (config (new config_inverted))
                 < minValue (config (new config_inverted)))
    by (vm_compute; reflexivity).
  split; [exact Hinv |].
  exact (proj1 (inverted_range_rejects_every_write (new config_inverted)
                  vitality 7 Hinv)).
Defined.

(** X17.  Under the range policy of [SimpleAttributeManager] a setter is
    accepted exactly when the value lies within [minValue, maxValue], and
    an accepted [setBase] stores the value as given: the clamp inside
    [setBase] never alters it. *)
Theorem range_policy_stores_base_as_given
    (m : AttributeManager) (key : AttributeKey) (value : Z) :
  (result (setBase SimpleAttributeManager_validate key value m) = true
   ↔ minValue (config m) <= value <= maxValue (config m))
  ∧ (result (setBase SimpleAttributeManager_validate key value m) = true →
     baseValue
       (rvalues
          (states (final (setBase SimpleAttributeManager_validate key value m))
             key)) = value).
Proof.
  destruct (SimpleAttributeManager_validate (config m) key value) eqn:Hv.
  - assert (Hin : minValue (config m) <= value <= maxValue (config m)).
    { unfold SimpleAttributeManager_validate in Hv. lia. }
    split.
    + by rewrite (proj1 (setBase_accepted _ _ _ _ Hv)).
    + intros _. rewrite setBase_values, Hv.
      destruct (decide (key = key)); [| done].
      cbn [cell_put baseValue]. by apply clamp_fixed.
  - rewrite setBase_rejected by done. cbn [result fst].
    split; [| done]. split; [done |].
    unfold SimpleAttributeManager_validate in Hv. lia.
Qed.

Lemma range_policy_stores_base_as_given_witness :
  result (setBase SimpleAttributeManager_validate luck 42
            (new config_vitality10)) = true
  ∧ baseValue
      (rvalues
         (states
            (final (setBase SimpleAttributeManager_validate luck 42
                      (new config_vitality10))) luck)) = 42.
Proof.
  assert (Hok : result (setBase SimpleAttributeManager_validate luck 42
                          (new config_vitality10)) = true)
    by (vm_compute; reflexivity).
  split; [exact Hok |].
  exact (proj2 (range_policy_stores_base_as_given (new config_vitality10)
                  luck 42) Hok).
Defined.



(** X19.  [loadData] reads a sub-field that a record lacks as 0: when
    [validate] accepts 0 for the key, a missing [equipmentBonus] or
    [effectBonus] resets that cell to 0 and a missing [baseValue] sets
    the base cell to [clamp(0, minValue, maxValue)], whatever the cell
    held; when [validate] rejects 0 the cell is kept. *)
Theorem loadData_missing_field_loads_zero
    (validate : RequiredConfig → AttributeKey → Z → bool)
    (order : list AttributeKey)
    (data : gmap AttributeKey PartialAttributeValues)
    (m : AttributeManager) (key : AttributeKey)
    (values : PartialAttributeValues) :
  order ≡ₚ ATTRIBUTE_KEYS →
  data !! key = Some values →
  let after := rvalues (states (final (loadData_in validate order data m)) key) in
  let old := rvalues (states m key) in
  let zero_ok := validate (config m) key 0 in
  (baseValue_opt values = None →
   baseValue after
   = if zero_ok
     then Compact.clamp 0 (minValue (config m)) (maxValue (config m))
     else baseValue old)
  ∧ (equipmentBonus_opt values = None →
     equipmentBonus after = if zero_ok then 0 else equipmentBonus old)
  ∧ (effectBonus_opt values = None →
     effectBonus after = if zero_ok then 0 else effectBonus old).
Proof.
  intros Hp Hk after old zero_ok. subst after.
  rewrite (loadData_in_loaded validate order data m key Hp), Hk.
  unfold loaded. cbn [baseValue equipmentBonus effectBonus].
  repeat split; by intros ->.
Qed.

Lemma loadData_missing_field_loads_zero_witness :
  let data : gmap AttributeKey PartialAttributeValues :=
    {[ vitality := {| baseValue_opt := Some 20; equipmentBonus_opt := None;
                      effectBonus_opt := None |} ]} in
  let m := final (setEquipment SimpleAttributeManager_validate vitality 5
                    (new config_vitality10)) in
  ATTRIBUTE_KEYS ≡ₚ ATTRIBUTE_KEYS
  ∧ equipmentBonus (rvalues (states m vitality)) = 5
  ∧ equipmentBonus
      (rvalues
         (states (final (loadData SimpleAttributeManager_validate data m))
            vitality)) = 0.
Proof.
  intros data m. split; [reflexivity |]. split; [vm_compute; reflexivity |].
  destruct (loadData_missing_field_loads_zero
              SimpleAttributeManager_validate ATTRIBUTE_KEYS data m vitality
              {| baseValue_opt := Some 20; equipmentBonus_opt := None;
                 effectBonus_opt := None |}
              (reflexivity _) ltac:(vm_compute; reflexivity))
    as (_ & Hq & _).
  exact (Hq eq_refl).
Defined.

Lemma loadData_in_nothing
    (validate : RequiredConfig → AttributeKey → Z → bool)
    (order : list AttributeKey) (m : AttributeManager) :
  loadData_in validate order ∅ m = ((), m, []).
Proof.
  assert (Hentry : ∀ k m0, loadEntry validate ∅ k m0 = ((), m0, [])).
  { intros k m0. unfold loadEntry. by rewrite lookup_empty. }
  unfold loadData_in. revert m.
  induction order as [| k ks IH]; intros m; cbn [forEach]; [done |].
  unfold bind. rewrite Hentry. cbn [fst snd app]. rewrite IH. reflexivity.
Qed.

(** X20.  Loading an empty record is a no-op: the manager is left as it
    is and no hook is called, not even [validate]; and in any load, a key
    that the data does not mention keeps its three cells. *)
Theorem loadData_of_nothing_does_nothing
    (validate : RequiredConfig → AttributeKey → Z → bool)
    (order : list AttributeKey)
    (data : gmap AttributeKey PartialAttributeValues)
    (m : AttributeManager) (key : AttributeKey) :
  loadData_in validate order ∅ m = ((), m, [])
  ∧ (order ≡ₚ ATTRIBUTE_KEYS →
     data !! key = None →
     rvalues (states (final (loadData_in validate order data m)) key)
     = rvalues (states m key)).
Proof.
  split; [apply loadData_in_nothing |].
  intros Hp Hk.
  by rewrite (loadData_in_loaded validate order data m key Hp), Hk.
Qed.

Lemma loadData_of_nothing_does_nothing_witness :
  let data : gmap AttributeKey PartialAttributeValues :=
    {[ agility := asPartial (mkValues 30 4 1) ]} in
  ATTRIBUTE_KEYS ≡ₚ ATTRIBUTE_KEYS
  ∧ data !! vitality = None
  ∧ rvalues
      (states
         (final (loadData SimpleAttributeManager_validate data
                   (new config_vitality10))) vitality)
    = mkValues 10 0 0.
Proof.
  intros data.
  assert (Hk : data !! vitality = None) by (vm_compute; reflexivity).
  split; [reflexivity |]. split; [exact Hk |].
  unfold loadData.
  rewrite (proj2 (loadData_of_nothing_does_nothing
                    SimpleAttributeManager_validate ATTRIBUTE_KEYS data
                    (new config_vitality10) vitality) (reflexivity _) Hk).
  reflexivity.
Defined.

(** X21.  [exportData] after [loadData] gives back what was loaded: for
    a key whose record is complete, with all three values accepted by
    [validate] and the base value within [minValue, maxValue], the
    exported record is the loaded one. *)
Theorem exportData_after_loadData
    (validate : RequiredConfig → AttributeKey → Z → bool)
    (order : list AttributeKey)
    (data : gmap AttributeKey PartialAttributeValues)
    (m : AttributeManager) (key : AttributeKey) (v : AttributeValues) :
  order ≡ₚ ATTRIBUTE_KEYS →
  data !! key = Some (asPartial v) →
  ReactiveReach.all_accepted validate (config m) key v →
  minValue (config m) <= baseValue v <= maxValue (config m) →
  exportData (final (loadData_in validate order data m)) !! key = Some v.
Proof.
  intros Hp Hk (Hb & Hq & Hf) Hin.
  rewrite exportData_lookup.
  rewrite (loadData_in_loaded validate order data m key Hp), Hk.
  unfold loaded.
  cbn [asPartial baseValue_opt equipmentBonus_opt effectBonus_opt default].
  unfold id. rewrite Hb, Hq, Hf, clamp_fixed by exact Hin.
  by destruct v.
Qed.

Lemma exportData_after_loadData_witness :
  let data : gmap AttributeKey PartialAttributeValues :=
    {[ agility := asPartial (mkValues 30 4 1) ]} in
  let m := new config_vitality10 in
  ATTRIBUTE_KEYS ≡ₚ ATTRIBUTE_KEYS
  ∧ data !! agility = Some (asPartial (mkValues 30 4 1))
  ∧ ReactiveReach.all_accepted SimpleAttributeManager_validate (config m)
      agility (mkValues 30 4 1)
  ∧ minValue (config m) <= 30 <= maxValue (config m)
  ∧ exportData (final (loadData SimpleAttributeManager_validate data m))
      !! agility = Some (mkValues 30 4 1).
Proof.
  intros data m.
  assert (Hk : data !! agility = Some (asPartial (mkValues 30 4 1)))
    by (vm_compute; reflexivity).
  assert (Hacc : ReactiveReach.all_accepted SimpleAttributeManager_validate
                   (config m) agility (mkValues 30 4 1))
    by (by repeat split).
  assert (Hin : minValue (config m) <= 30 <= maxValue (config m))
    by (vm_compute; split; discriminate).
  split; [reflexivity |]. split; [exact Hk |]. split; [exact Hacc |].
  split; [exact Hin |].
  exact (exportData_after_loadData SimpleAttributeManager_validate
           ATTRIBUTE_KEYS data m agility (mkValues 30 4 1)
           (reflexivity _) Hk Hacc Hin).
Defined.

(** X22.  [exportData] returns a record for exactly the five keys, each
    holding the current contents of the key's three cells (raw values,
    not the clamped total); [destroy] changes nothing of it, nor any
    total. *)
Theorem exportData_is_the_cells (m : AttributeManager) :
  dom (exportData m) = {[vitality; strength; agility; intellect; luck]}
  ∧ (∀ key, exportData m !! key = Some (rvalues (states m key)))
  ∧ exportData (destroy m) = exportData m
  ∧ ∀ key, getValue (destroy m) key = getValue m key.
Proof.
  split; [| split; [apply exportData_lookup | by split]].
  unfold exportData, ATTRIBUTE_KEYS. cbn [foldl].
  rewrite !dom_insert_L, dom_empty_L. set_solver.
Qed.

(** X23.  Both value builders return a field that the overrides provide
    as it is; a field the overrides lack is 10, 2, 2 (base, equipment,
    effect) in [createAttributeValues] and 0 in [createValues].  The
    totals of the two therefore differ by the defaults of the missing
    fields. *)
Theorem value_builders_defaults (overrides : option PartialAttributeValues) :
  let shared := Shared.createAttributeValues overrides in
  let compact := Compact.createValues overrides in
  let given (f : PartialAttributeValues → option Z) : option Z :=
    overrides ≫= f in
  baseValue shared = default 10 (given baseValue_opt)
  ∧ equipmentBonus shared = default 2 (given equipmentBonus_opt)
  ∧ effectBonus shared = default 2 (given effectBonus_opt)
  ∧ baseValue compact = default 0 (given baseValue_opt)
  ∧ equipmentBonus compact = default 0 (given equipmentBonus_opt)
  ∧ effectBonus compact = default 0 (given effectBonus_opt)
  ∧ Shared.calculateTotalAttributeValue shared
    = Compact.calculateTotal compact
      + from_option (λ _, 0) 10 (given baseValue_opt)
      + from_option (λ _, 0) 2 (given equipmentBonus_opt)
      + from_option (λ _, 0) 2 (given effectBonus_opt).
Proof.
  destruct overrides as [[[b |] [q |] [f |]] |]; cbn;
    unfold Shared.calculateTotalAttributeValue, Compact.calculateTotal;
    cbn; repeat split; lia.
Qed.

Section NotificationFacts.
Import ReactiveReach.

Variable validate : RequiredConfig → AttributeKey → Z → bool.

Lemma change_trace_notifications cfg key old total :
  notifications (change_trace cfg key old total)
  = if decide (total = old) then [] else [(key, old, total)].
Proof.
  unfold change_trace. case_decide; [done |].
  cbn. by destruct (autoPersist cfg).
Qed.

Lemma change_trace_validations cfg key old total :
  validations (change_trace cfg key old total) = [].
Proof.
  unfold change_trace. case_decide; [done |].
  cbn. by destruct (autoPersist cfg).
Qed.

(** What a write on a wired manager notifies. *)
Lemma Value_set_notifications key c x m k o n :
  wired m →
  (k, o, n) ∈ notifications (trace (Value_set key c x m)) →
  k = key ∧ o = getValue m key
  ∧ n = getValue (final (Value_set key c x m)) key ∧ o ≠ n.
Proof.
  intros Hw. destruct (Value_set_wired key c x m Hw) as (_ & -> & ->).
  rewrite change_trace_notifications. case_decide as Hd.
  - by intros ?%elem_of_nil.
  - intros [= -> -> ->]%list_elem_of_singleton. by repeat split.
Qed.

Lemma validations_cons key value t :
  validations (ValidateCalled key value :: t) = (key, value) :: validations t.
Proof. reflexivity. Qed.

Lemma setter_validations_wired key value m :
  wired m →
  validations (trace (setBase validate key value m)) = [(key, value)]
  ∧ validations (trace (setEquipment validate key value m)) = [(key, value)]
  ∧ validations (trace (setEffect validate key value m)) = [(key, value)].
Proof.
  intros Hw. destruct (validate (config m) key value) eqn:Hv.
  - destruct (setBase_accepted validate key value m Hv) as (_ & _ & ->).
    destruct (setEquipment_accepted validate key value m Hv) as (_ & _ & ->).
    destruct (setEffect_accepted validate key value m Hv) as (_ & _ & ->).
    rewrite !setter_trace_wired by exact Hw.
    rewrite !validations_cons. by rewrite !change_trace_validations.
  - by rewrite setBase_rejected, setEquipment_rejected, setEffect_rejected.
Qed.

Lemma validations_app t1 t2 :
  validations (t1 ++ t2) = validations t1 ++ validations t2.
Proof. apply omap_app. Qed.

Lemma loadEntry_validations data k m :
  wired m →
  validations (trace (loadEntry validate data k m)) = submitted data k.
Proof.
  intros Hw. unfold loadEntry, submitted.
  destruct (data !! k) as [values |]; [| done].
  rewrite !trace_bind, !validations_app. cbn [ret trace snd validations omap].
  rewrite app_nil_r.
  rewrite (proj1 (setter_validations_wired _ _ m Hw)).
  rewrite (proj1 (proj2 (setter_validations_wired _ _ _
                           (setBase_wired validate _ _ m Hw)))).
  rewrite (proj2 (proj2 (setter_validations_wired _ _ _
                           (setEquipment_wired validate _ _ _
                              (setBase_wired validate _ _ m Hw))))).
  reflexivity.
Qed.

Lemma loadData_in_validations order data m :
  wired m →
  validations (trace (loadData_in validate order data m))
  = order ≫= submitted data.
Proof.
  unfold loadData_in. revert m.
  induction order as [| k ks IH]; intros m Hw; cbn [forEach]; [done |].
  rewrite trace_bind, validations_app.
  rewrite loadEntry_validations by exact Hw.
  rewrite IH by (by apply loadEntry_wired). reflexivity.
Qed.

End NotificationFacts.

(** X24.  On a manager that the public API can produce, every change
    notification that a setter or [modify] raises is about the key
    written, reports as old value the total held before the call and as
    new value the total held after it, and the two differ. *)
Theorem notifications_report_the_totals
    (validate : RequiredConfig → AttributeKey → Z → bool)
    (m : AttributeManager) (key : AttributeKey) (value : Z)
    (k : AttributeKey) (o n : Z) :
  ReactiveReach.reachable validate m →
  ((k, o, n) ∈ notifications (trace (setBase validate key value m)) →
   k = key ∧ o = getValue m key
   ∧ n = getValue (final (setBase validate key value m)) key ∧ o ≠ n)
  ∧ ((k, o, n) ∈ notifications (trace (setEquipment validate key value m)) →
     k = key ∧ o = getValue m key
     ∧ n = getValue (final (setEquipment validate key value m)) key ∧ o ≠ n)
  ∧ ((k, o, n) ∈ notifications (trace (setEffect validate key value m)) →
     k = key ∧ o = getValue m key
     ∧ n = getValue (final (setEffect validate key value m)) key ∧ o ≠ n)
  ∧ ((k, o, n) ∈ notifications (trace (modify validate key value m)) →
     k = key ∧ o = getValue m key
     ∧ n = getValue (final (modify validate key value m)) key ∧ o ≠ n).
Proof.
  intros Hr. pose proof (reachable_wired validate m Hr) as Hw.
  assert (Hbase : ∀ x,
    (k, o, n) ∈ notifications (trace (setBase validate key x m)) →
    k = key ∧ o = getValue m key
    ∧ n = getValue (final (setBase validate key x m)) key ∧ o ≠ n).
  { intros x. destruct (validate (config m) key x) eqn:Hv.
    - destruct (setBase_accepted validate key x m Hv) as (_ & -> & ->).
      cbn [notifications omap]. by apply Value_set_notifications.
    - rewrite setBase_rejected by done. by intros ?%elem_of_nil. }
  split; [apply Hbase |]. split; [| split].
  - destruct (validate (config m) key value) eqn:Hv.
    + destruct (setEquipment_accepted validate key value m Hv)
        as (_ & -> & ->).
      cbn [notifications omap]. by apply Value_set_notifications.
    + rewrite setEquipment_rejected by done. by intros ?%elem_of_nil.
  - destruct (validate (config m) key value) eqn:Hv.
    + destruct (setEffect_accepted validate key value m Hv) as (_ & -> & ->).
      cbn [notifications omap]. by apply Value_set_notifications.
    + rewrite setEffect_rejected by done. by intros ?%elem_of_nil.
  - destruct (modify_setBase validate key value m) as (_ & -> & ->).
    apply Hbase.
Qed.

Lemma notifications_report_the_totals_witness :
  let m := new config_vitality10 in
  ReactiveReach.reachable SimpleAttributeManager_validate m
  ∧ (vitality, 10, 15)
    ∈ notifications
        (trace (setEquipment SimpleAttributeManager_validate vitality 5 m))
  ∧ getValue (final (setEquipment SimpleAttributeManager_validate vitality 5 m))
      vitality = 15.
Proof.
  intros m.
  assert (Hr : ReactiveReach.reachable SimpleAttributeManager_validate m)
    by apply ReactiveReach.reach_new.
  assert (Hin : (vitality, 10, 15)
    ∈ notifications
        (trace (setEquipment SimpleAttributeManager_validate vitality 5 m))).
  { apply (bool_decide_unpack _). by vm_compute. }
  split; [exact Hr |]. split; [exact Hin |].
  destruct (proj1 (proj2
    (notifications_report_the_totals SimpleAttributeManager_validate m
       vitality 5 vitality 10 15 Hr)) Hin) as (_ & _ & Hn & _).
  by rewrite <- Hn.
Defined.

(** X25.  On a manager that the public API can produce, [loadData]
    calls [validate] exactly three times for every key of the data that
    it visits, on the base value, the equipment bonus and the effect
    bonus in this order (0 for a missing field), and never for a key the
    data lacks: a rejection does not stop the later calls. *)
Theorem loadData_validates_every_field
    (validate : RequiredConfig → AttributeKey → Z → bool)
    (order : list AttributeKey)
    (data : gmap AttributeKey PartialAttributeValues)
    (m : AttributeManager) :
  ReactiveReach.reachable validate m →
  ReactiveReach.validations (trace (loadData_in validate order data m))
  = order ≫= λ key,
      match data !! key with
      | Some values =>
          [(key, default 0 (baseValue_opt values));
           (key, default 0 (equipmentBonus_opt values));
           (key, default 0 (effectBonus_opt values))]
      | None => []
      end.
Proof.
  intros Hr.
  exact (loadData_in_validations validate order data m
           (reachable_wired validate m Hr)).
Qed.

Lemma loadData_validates_every_field_witness :
  let data : gmap AttributeKey PartialAttributeValues :=
    {[ vitality := {| baseValue_opt := Some 500;
                      equipmentBonus_opt := Some 5;
                      effectBonus_opt := None |} ]} in
  let m := new config_vitality10 in
  ReactiveReach.reachable SimpleAttributeManager_validate m
  ∧ ReactiveReach.validations
      (trace (loadData SimpleAttributeManager_validate data m))
    = [(vitality, 500); (vitality, 5); (vitality, 0)].
Proof.
  intros data m.
  assert (Hr : ReactiveReach.reachable SimpleAttributeManager_validate m)
    by apply ReactiveReach.reach_new.
  split; [exact Hr |]. unfold loadData.
  rewrite (loadData_validates_every_field SimpleAttributeManager_validate
             ATTRIBUTE_KEYS data m Hr).
  vm_compute. reflexivity.
Defined.
